(** * sitemap-scraper: the workflow of [src/index.ts] and its HTTP handler

    A shallow embedding of the Cloudflare worker of this repository: the
    five-step workflow [MyWorkflow.run] and the [fetch] handler that creates
    workflow instances and reports their status.

    JavaScript strings are sequences of UTF-16 code units; they are modelled
    as [list N].  Network calls, the clock, console output and the bucket are
    effects: a step body is a function from the history of events so far to
    an outcome and the extended history. *)

From Stdlib Require Import NArith ZArith List String Ascii Lia Bool.
From stdpp Require Import gmap list.
Import ListNotations.

Local Open Scope N_scope.

(** ** JavaScript strings *)

Module JS.

Abbreviation jsstring := (list N).

(** A literal of the source, written as a Rocq string. *)
Definition lit (s : string) : jsstring :=
  map N_of_ascii (list_ascii_of_string s).

(** The double-quote character, as a one-character string. *)
Definition dquote : jsstring := [34].

Definition str_eqb (a b : jsstring) : bool := bool_decide (a = b).

(** [s.startsWith(p)], also the way a literal stretch of a regex matches. *)
Fixpoint starts_with (p s : jsstring) : bool :=
  match p, s with
  | [], _ => true
  | _ :: _, [] => false
  | a :: p', b :: s' => (a =? b) && starts_with p' s'
  end.

(** [s.split(sep)] for a one-character separator: always at least one
    piece, empty pieces kept. *)
Fixpoint split (sep : N) (s : jsstring) : list jsstring :=
  match s with
  | [] => [[]]
  | c :: s' =>
      if c =? sep then [] :: split sep s'
      else match split sep s' with
           | [] => [[c]]
           | p :: ps => (c :: p) :: ps
           end
  end.

(** [Boolean(s)] for a string: the empty string is the only falsy one. *)
Definition truthy_str (s : jsstring) : bool :=
  match s with [] => false | _ => true end.

(** [arr.pop()] as a value: the last element, [None] for [undefined]. *)
Definition pop {A} (l : list A) : option A := last l.

(** [s.replace(/c/g, r)] and [s.replace(/[cd]/g, r)] for single characters:
    every code unit that satisfies [p] is replaced by [r]. *)
Definition replace_chars (p : N -> bool) (r : N) (s : jsstring) : jsstring :=
  map (fun c => if p c then r else c) s.

(** Line terminators: what [.] in a regex without the [s] flag refuses. *)
Definition is_line_terminator (c : N) : bool :=
  (c =? 10) || (c =? 13) || (c =? 8232) || (c =? 8233).

(** The class [\s] of a regex. *)
Definition is_space (c : N) : bool :=
  (c =? 9) || (c =? 10) || (c =? 11) || (c =? 12) || (c =? 13) || (c =? 32)
  || (c =? 160) || (c =? 5760) || ((8192 <=? c) && (c <=? 8202))
  || (c =? 8232) || (c =? 8233) || (c =? 8239) || (c =? 8287)
  || (c =? 12288) || (c =? 65279).

(** [(.*?)] followed by the literal [close]: the shortest run of
    characters other than line terminators after which [close] stands.
    Returns the capture and what follows the whole match. *)
Fixpoint lazy_until (close s : jsstring) : option (jsstring * jsstring) :=
  if starts_with close s then Some ([], skipn (length close) s)
  else match s with
       | [] => None
       | c :: s' =>
           if is_line_terminator c then None
           else match lazy_until close s' with
                | Some (cap, rest) => Some (c :: cap, rest)
                | None => None
                end
       end.

(** [\s+] is greedy; what follows it in the source's pattern is a letter,
    so the only way to match is to take the whole run of spaces. *)
Fixpoint skip_spaces (s : jsstring) : jsstring :=
  match s with
  | c :: s' => if is_space c then skip_spaces s' else s
  | [] => []
  end.

Definition spaces_plus (s : jsstring) : option jsstring :=
  match s with
  | c :: s' => if is_space c then Some (skip_spaces s') else None
  | [] => None
  end.

(** A pattern matched at the head of a string gives its capture group 1 and
    the rest of the string after the match. *)
Definition matcher := jsstring -> option (jsstring * jsstring).

(** [/<loc>(.*?)<\/loc>/] at the head of [s]. *)
Definition match_loc : matcher := fun s =>
  if starts_with (lit "<loc>") s
  then lazy_until (lit "</loc>") (skipn 5 s)
  else None.

(** [/<a\s+href="(.*?)"/] at the head of [s]. *)
Definition match_anchor : matcher := fun s =>
  if starts_with (lit "<a") s then
    match spaces_plus (skipn 2 s) with
    | Some s1 =>
        if starts_with (lit "href=" ++ dquote) s1
        then lazy_until dquote (skipn 6 s1)
        else None
    | None => None
    end
  else None.

(** [[...s.matchAll(re)].map(m => m[1])] for a global regex whose matches
    are never empty: scan from the left; after a match resume where it
    ended ([skip] counts the characters of the match still to pass). *)
Fixpoint matchAll_from (m : matcher) (skip : nat) (s : jsstring)
  : list jsstring :=
  match s with
  | [] => []
  | _ :: s' =>
      match skip with
      | S k => matchAll_from m k s'
      | O =>
          match m s with
          | Some (cap, rest) =>
              cap :: matchAll_from m (length s - length rest - 1) s'
          | None => matchAll_from m 0 s'
          end
      end
  end.

Definition matchAll_captures (m : matcher) (s : jsstring) : list jsstring :=
  matchAll_from m 0 s.

(** [[...new Set(l)]]: the constructor adds the elements from left to
    right, an element already in the set is not added again, and the set
    iterates in insertion order. *)
Definition set_add (acc : list jsstring) (x : jsstring) : list jsstring :=
  if existsb (str_eqb x) acc then acc else acc ++ [x].

Definition set_of (l : list jsstring) : list jsstring :=
  fold_left set_add l [].

(** [arr.slice(0, n)]. *)
Definition slice0 {A} (n : nat) (l : list A) : list A := firstn n l.

(** [String(n)] for a non-negative integer: its decimal digits. *)
Fixpoint uint_codes (d : Decimal.uint) : jsstring :=
  match d with
  | Decimal.Nil => []
  | Decimal.D0 d => 48 :: uint_codes d
  | Decimal.D1 d => 49 :: uint_codes d
  | Decimal.D2 d => 50 :: uint_codes d
  | Decimal.D3 d => 51 :: uint_codes d
  | Decimal.D4 d => 52 :: uint_codes d
  | Decimal.D5 d => 53 :: uint_codes d
  | Decimal.D6 d => 54 :: uint_codes d
  | Decimal.D7 d => 55 :: uint_codes d
  | Decimal.D8 d => 56 :: uint_codes d
  | Decimal.D9 d => 57 :: uint_codes d
  end.

Definition num_to_string (n : N) : jsstring := uint_codes (N.to_uint n).

End JS.

Import JS.


(** ** Values, exceptions and outcomes *)

#[local] Set Warnings "-register-all".

(** A parsed JSON document.  A number is kept as the decimal literal it was
    written as: mantissa [m] and exponent [e] stand for [m * 10^e]. *)
Inductive json :=
| JNull
| JBool (b : bool)
| JNum (m e : Z)
| JStr (s : jsstring)
| JArr (items : list json)
| JObj (fields : list (jsstring * json)).

(** A JavaScript value that may be [undefined]. *)
Abbreviation jsval := (option json).

(** The last binding of a key: [JSON.parse] keeps the last duplicate. *)
Fixpoint lookup_last (k : jsstring) (fs : list (jsstring * json)) : jsval :=
  match fs with
  | [] => None
  | (k', v) :: fs' =>
      match lookup_last k fs' with
      | Some w => Some w
      | None => if str_eqb k k' then Some v else None
      end
  end.

(** [v?.k]: [undefined] on [null] and [undefined]; a primitive or an array
    has no property of that name. *)
Definition opt_prop (v : jsval) (k : jsstring) : jsval :=
  match v with
  | Some (JObj fs) => lookup_last k fs
  | _ => None
  end.

(** A number literal that [JSON.parse] rounds to zero: zero itself, or a
    magnitude of at most [2^-1075], half the smallest double. *)
Definition num_is_zero (m e : Z) : bool :=
  ((m =? 0) || ((e <? 0) && (Z.abs m * 2 ^ 1075 <=? 10 ^ (- e))))%Z.

(** [Boolean(v)]. *)
Definition truthy (v : jsval) : bool :=
  match v with
  | None => false
  | Some JNull => false
  | Some (JBool b) => b
  | Some (JNum m e) => negb (num_is_zero m e)
  | Some (JStr s) => truthy_str s
  | Some (JArr _) => true
  | Some (JObj _) => true
  end.

(** [typeof v === 'string']. *)
Definition typeof_string (v : jsval) : bool :=
  match v with Some (JStr _) => true | _ => false end.

(** The string a value is when [typeof_string] holds. *)
Definition as_string (v : jsval) : jsstring :=
  match v with Some (JStr s) => s | _ => [] end.

(** A thrown error object: its [name] and its [message]. *)
Record exn := { exn_name : jsstring; exn_message : jsstring }.

Definition Error (msg : jsstring) : exn :=
  {| exn_name := lit "Error"; exn_message := msg |}.

Definition TypeError (msg : jsstring) : exn :=
  {| exn_name := lit "TypeError"; exn_message := msg |}.

(** [`${err}`]: [Error.prototype.toString]. *)
Definition exn_to_string (e : exn) : jsstring :=
  match exn_name e, exn_message e with
  | [], m => m
  | n, [] => n
  | n, m => n ++ lit ": " ++ m
  end.

Inductive outcome (A : Type) :=
| Ok (a : A)
| Throw (e : exn).
Arguments Ok {A} a.
Arguments Throw {A} e.

(** ** Effects of the workflow *)

Inductive event :=
| EvFetch (url : jsstring)                 (* fetch(sitemapUrl) *)
| EvScrape (authorization url : jsstring)  (* POST to the extraction API *)
| EvWarn (msg : jsstring)                  (* console.warn *)
| EvSleep (ms : N)                         (* setTimeout(resolve, ms) *)
| EvNow                                    (* new Date() *)
| EvPut (name : jsstring) (data : list N)  (* MY_BUCKET.put *)
| EvInvoke (step : jsstring).              (* the runtime calls a step's body *)

(** A [Response]: [ok] is derived from the status, [text()] or [json()]
    may reject. *)
Record response (B : Type) := {
  r_status : N;
  r_statusText : jsstring;
  r_body : outcome B
}.
Arguments r_status {B} r.
Arguments r_statusText {B} r.
Arguments r_body {B} r.

Definition r_ok {B} (r : response B) : bool :=
  (200 <=? r_status r) && (r_status r <=? 299).

(** What the worker does not own: the network, the extraction service, the
    bucket, the clock and the [fflate] library.  Each answer may depend on
    everything that happened before the call. *)
Record services := {
  SCRAPING_API_TOKEN : jsstring;
  (** [fetch(url)]: rejects, or resolves to a response with a text body *)
  http_get : list event -> jsstring -> outcome (response jsstring);
  (** the extraction call: rejects, or resolves to a response whose JSON
      body, of declared type [{ markdown: string }], gives [markdown] *)
  scrape_post : list event -> jsstring -> outcome (response jsstring);
  (** [MY_BUCKET.put(name, data)] *)
  bucket_put : list event -> jsstring -> list N -> outcome unit;
  (** [new Date().toISOString()] *)
  now_iso : list event -> jsstring;
  strToU8 : jsstring -> list N;
  zipSync : list (jsstring * list N) -> outcome (list N)
}.

(** A computation with effects on a state [S] that may throw. *)
Definition eff (S A : Type) : Type := S -> outcome A * S.

Definition ret {S A} (a : A) : eff S A := fun s => (Ok a, s).
Definition throw {S A} (e : exn) : eff S A := fun s => (Throw e, s).
Definition bind {S A B} (m : eff S A) (k : A -> eff S B) : eff S B :=
  fun s => match m s with
           | (Ok a, s') => k a s'
           | (Throw e, s') => (Throw e, s')
           end.
Definition lift {S A} (o : outcome A) : eff S A := fun s => (o, s).

(** [try { m } catch (err) { handler(err) }] *)
Definition catch {S A} (m : eff S A) (handler : exn -> eff S A) : eff S A :=
  fun s => match m s with
           | (Ok a, s') => (Ok a, s')
           | (Throw e, s') => handler e s'
           end.

Notation "'let*' x ':=' m 'in' k" := (bind m (fun x => k))
  (at level 10, x name, m at level 100, k at level 200).
Notation "m ';;' k" := (bind m (fun _ => k))
  (at level 100, k at level 200, right associativity).

(** A step body: the state is the history of events so far, extended by
    what the body does. *)
Abbreviation io := (eff (list event)).

Definition emit (e : event) : io unit := fun h => (Ok tt, h ++ [e]).

(** [try { m } catch (err) { throw new Error(prefix + err.message) }] *)
Definition try_catch {A} (prefix : jsstring) (m : io A) : io A :=
  catch m (fun err => throw (Error (prefix ++ exn_message err))).

(** ** The five step bodies of [MyWorkflow.run] *)

Record page := { fileName : jsstring; content : jsstring }.

Record upload_result := {
  zipName : jsstring;
  files : list jsstring;
  size : nat
}.

Record final_result := { downloadUrl : jsstring }.

Module Workflow.

Section Bodies.

Variable svc : services.

(** *** Step 1: Get Sitemap URL *)

Definition missing_url_message : jsstring :=
  lit "sitemapUrl is missing or invalid. Provide it using {" ++ dquote
  ++ lit "sitemapUrl" ++ dquote ++ lit ":" ++ dquote ++ lit "https://..."
  ++ dquote ++ lit "}".

Definition get_sitemap_url (payload : jsval) : io jsstring :=
  try_catch (lit "Get Sitemap URL failed: ")
    (let url := opt_prop payload (lit "sitemapUrl") in
     if negb (truthy url) || negb (typeof_string url)
     then throw (Error missing_url_message)
     else ret (as_string url)).

(** *** Step 2: Fetch & Parse Sitemap *)

Definition do_fetch (url : jsstring) : io (response jsstring) :=
  fun h => (http_get svc h url, h ++ [EvFetch url]).

Definition fetch_failure_message (r : response jsstring) : jsstring :=
  lit "Failed to fetch sitemap: " ++ num_to_string (r_status r)
  ++ lit " " ++ r_statusText r.

(** Lines 56 to 64: from the text of the response to the list of links. *)
Definition parse_urls (xml : jsstring) : outcome (list jsstring) :=
  let locUrls := matchAll_captures match_loc xml in
  let aTags := matchAll_captures match_anchor xml in
  let allUrls := set_of (locUrls ++ aTags) in
  if (length allUrls =? 0)%nat
  then Throw (Error (lit "No URLs found in sitemap."))
  else Ok (slice0 10 allUrls).

Definition fetch_and_parse (sitemapUrl : jsstring) : io (list jsstring) :=
  try_catch (lit "Fetch & Parse Sitemap failed: ")
    (let* response := do_fetch sitemapUrl in
     if negb (r_ok response)
     then throw (Error (fetch_failure_message response))
     else
       let* xml := lift (r_body response) in
       lift (parse_urls xml)).

(** *** Step 3: Scrape Pages *)

Definition do_scrape (url : jsstring) : io (response jsstring) :=
  fun h =>
    let auth := lit "Bearer " ++ SCRAPING_API_TOKEN svc in
    (scrape_post svc h url, h ++ [EvScrape auth url]).

(** [(url.split('/').filter(Boolean).pop() || 'index') + '.md'] *)
Definition file_name_of (url : jsstring) : jsstring :=
  let last_segment := pop (List.filter truthy_str (split 47 url)) in
  (match last_segment with
   | Some s => if truthy_str s then s else lit "index"
   | None => lit "index"
   end) ++ lit ".md".

(** The [for ... of] loop over [pageUrls], [out] being the array filled so
    far.  A response that is not ok takes the [continue] branch. *)
Fixpoint scrape_loop (urls : list jsstring) (out : list page)
  : io (list page) :=
  match urls with
  | [] => ret out
  | url :: rest =>
      let* res := do_scrape url in
      if negb (r_ok res) then
        emit (EvWarn (lit "Failed to scrape: " ++ url)) ;;
        scrape_loop rest out
      else
        let* markdown := lift (r_body res) in
        let fileName := file_name_of url in
        let out' := out ++ [{| fileName := fileName; content := markdown |}] in
        emit (EvSleep 3000) ;;
        scrape_loop rest out'
  end.

Definition scrape_pages (pageUrls : list jsstring) : io (list page) :=
  try_catch (lit "Scrape Pages failed: ")
    (let* out := scrape_loop pageUrls [] in
     if (length out =? 0)%nat
     then throw (Error (lit "Scraping failed for all pages."))
     else ret out).

(** *** Step 4: Zip and Upload to R2 *)

(** [obj[k] = v] on an object whose keys are not array indices: a key
    already present keeps its place and takes the new value. *)
Fixpoint obj_set {V} (o : list (jsstring * V)) (k : jsstring) (v : V)
  : list (jsstring * V) :=
  match o with
  | [] => [(k, v)]
  | (k', v') :: o' =>
      if str_eqb k k' then (k', v) :: o' else (k', v') :: obj_set o' k v
  end.

Definition zip_entries (scrapedPages : list page)
  : list (jsstring * list N) :=
  fold_left (fun o p => obj_set o (fileName p) (strToU8 svc (content p)))
            scrapedPages [].

Definition is_dot (c : N) : bool := c =? 46.
Definition is_colon_or_dot (c : N) : bool := (c =? 58) || (c =? 46).

Definition read_clock : io jsstring :=
  fun h => (Ok (now_iso svc h), h ++ [EvNow]).

Definition do_put (name : jsstring) (data : list N) : io unit :=
  fun h => (bucket_put svc h name data, h ++ [EvPut name data]).

Definition zip_and_upload (sitemapUrl : jsstring) (scrapedPages : list page)
  : io upload_result :=
  try_catch (lit "Zip and Upload to R2 failed: ")
    (let zipEntries := zip_entries scrapedPages in
     let* zipData := lift (zipSync svc zipEntries) in
     match nth_error (split 47 sitemapUrl) 2 with
     | None =>
         throw (TypeError
           (lit "Cannot read properties of undefined (reading 'replace')"))
     | Some segment =>
         let domain := replace_chars is_dot 95 segment in
         let* iso := read_clock in
         let now := replace_chars is_colon_or_dot 45 iso in
         let zipName := domain ++ lit "_" ++ now ++ lit ".zip" in
         do_put zipName zipData ;;
         ret {| zipName := zipName;
                files := map fileName scrapedPages;
                size := length zipData |}
     end).

(** *** Step 5: Generate Result *)

Definition public_prefix : jsstring :=
  lit "https://pub-afa698db43a7418f8073ed229786891d.r2.dev/".

Definition generate_result (uploadResult : upload_result) : io final_result :=
  try_catch (lit "Generate Result failed: ")
    (let downloadUrl := public_prefix ++ zipName uploadResult in
     ret {| downloadUrl := downloadUrl |}).

End Bodies.

(** ** Durable steps *)

(** What a step can return and the runtime can store. *)
Inductive value :=
| VStr (s : jsstring)
| VUrls (l : list jsstring)
| VPages (l : list page)
| VUpload (u : upload_result)
| VResult (r : final_result).

(** [step.do<T>] is generic in a serializable [T]. *)
Class Serializable (A : Type) := {
  to_value : A -> value;
  of_value : value -> A;
  of_to_value : forall a, of_value (to_value a) = a
}.

#[export] Instance ser_string : Serializable jsstring :=
  {| to_value := VStr;
     of_value := fun v => match v with VStr s => s | _ => [] end;
     of_to_value := fun _ => eq_refl |}.

#[export] Instance ser_urls : Serializable (list jsstring) :=
  {| to_value := VUrls;
     of_value := fun v => match v with VUrls l => l | _ => [] end;
     of_to_value := fun _ => eq_refl |}.

#[export] Instance ser_pages : Serializable (list page) :=
  {| to_value := VPages;
     of_value := fun v => match v with VPages l => l | _ => [] end;
     of_to_value := fun _ => eq_refl |}.

#[export] Instance ser_upload : Serializable upload_result :=
  {| to_value := VUpload;
     of_value := fun v =>
       match v with
       | VUpload u => u
       | _ => {| zipName := []; files := []; size := 0 |}
       end;
     of_to_value := fun _ => eq_refl |}.

#[export] Instance ser_final : Serializable final_result :=
  {| to_value := VResult;
     of_value := fun v =>
       match v with VResult r => r | _ => {| downloadUrl := [] |} end;
     of_to_value := fun _ => eq_refl |}.

Inductive backoff := Constant | Linear | Exponential.

(** The [WorkflowStepConfig] of a step. *)
Record step_config := {
  retries_limit : nat;
  retries_delay : N;
  retries_backoff : backoff;
  timeout : jsstring
}.

(** The persisted results, keyed by step name. *)
Abbreviation step_log := (gmap jsstring value).

(** The state of an execution of [run]: what it returned or threw, the
    persisted log and the history of events. *)
Record exec (A : Type) := {
  result : outcome A;
  log_after : step_log;
  history : list event
}.
Arguments result {A} e.
Arguments log_after {A} e.
Arguments history {A} e.

Definition wf (A : Type) : Type := step_log -> list event -> exec A.

Definition wf_bind {A B} (m : wf A) (k : A -> wf B) : wf B :=
  fun log h =>
    let r := m log h in
    match result r with
    | Ok a => k a (log_after r) (history r)
    | Throw e =>
        {| result := Throw e; log_after := log_after r; history := history r |}
    end.

Definition wf_ret {A} (a : A) : wf A :=
  fun log h => {| result := Ok a; log_after := log; history := h |}.

Notation "'await' x ':=' m 'in' k" := (wf_bind m (fun x => k))
  (at level 10, x name, m at level 100, k at level 200).

(** Modelled from the spec: the runtime's retry of a step.  The body is
    called; when it throws and the step's retry budget is not exhausted it
    is called again.  [EvInvoke] records every call of the body. *)
Fixpoint attempts {A} (budget : nat) (name : jsstring) (body : io A)
  (h : list event) : outcome A * list event :=
  match body (h ++ [EvInvoke name]) with
  | (Ok a, h') => (Ok a, h')
  | (Throw e, h') =>
      match budget with
      | O => (Throw e, h')
      | S budget' => attempts budget' name body h'
      end
  end.

(** Modelled from the spec: [step.do(name, config, callback)] of the
    durable-execution runtime ([cloudflare:workers]), which is not part of
    the repository.  A result already committed under the step's name is
    returned without calling the body; otherwise the body runs under the
    step's retry policy and, when it succeeds, its result is committed
    under the step's name before the workflow goes on. *)
Definition step_do {A} `{Serializable A} (name : jsstring)
  (config : step_config) (body : io A) : wf A :=
  fun log h =>
    match log !! name with
    | Some v => {| result := Ok (of_value v); log_after := log; history := h |}
    | None =>
        match attempts (retries_limit config) name body h with
        | (Ok a, h') =>
            {| result := Ok a;
               log_after := <[name := to_value a]> log;
               history := h' |}
        | (Throw e, h') =>
            {| result := Throw e; log_after := log; history := h' |}
        end
    end.

Section Run.

Variable svc : services.

(** Modelled from the spec: the policy of a step that gives no
    configuration, a retry budget fixed by the runtime. *)
Variable default_config : step_config.

Definition sitemap_config : step_config :=
  {| retries_limit := 0;
     retries_delay := 1000;
     retries_backoff := Exponential;
     timeout := lit "10 minutes" |}.

Definition step1 : jsstring := lit "Get Sitemap URL".
Definition step2 : jsstring := lit "Fetch & Parse Sitemap".
Definition step3 : jsstring := lit "Scrape Pages".
Definition step4 : jsstring := lit "Zip and Upload to R2".
Definition step5 : jsstring := lit "Generate Result".

(** [MyWorkflow.run(event, step)], [payload] being [event.payload]. *)
Definition run (payload : jsval) : wf final_result :=
  await sitemapUrl :=
    step_do step1 default_config (get_sitemap_url payload) in
  await pageUrls :=
    step_do step2 sitemap_config (fetch_and_parse svc sitemapUrl) in
  await scrapedPages :=
    step_do step3 default_config (scrape_pages svc pageUrls) in
  await uploadResult :=
    step_do step4 default_config (zip_and_upload svc sitemapUrl scrapedPages) in
  await finalResult :=
    step_do step5 default_config (generate_result uploadResult) in
  wf_ret finalResult.

End Run.

(** Modelled from the spec: the status of an instance.  An instance whose
    [run] returned is complete; one whose [run] threw is errored, the
    thrown message being the visible failure reason. *)
Inductive instance_status :=
| Queued
| Running
| Complete (output : final_result)
| Errored (message : jsstring).

Definition status_after {A} (e : exec A) (done : A -> instance_status)
  : instance_status :=
  match result e with
  | Ok a => done a
  | Throw x => Errored (exn_message x)
  end.

End Workflow.

(** ** The HTTP handler *)

Module Handler.

Import Workflow.

(** What the handler reads of a [Request]. *)
Record request := {
  method : jsstring;
  pathname : jsstring;            (* new URL(req.url).pathname *)
  query_id : option jsstring;     (* url.searchParams.get('id'), None for null *)
  body : outcome json             (* req.json() *)
}.

Inductive response_body :=
| BodyNull
| BodyText (s : jsstring)
| BodyJson (j : json).            (* JSON.stringify(j) *)

Record http_response := {
  status : N;
  headers : list (jsstring * jsstring);
  payload : response_body
}.

(** A stored workflow instance. *)
Record instance := {
  inst_status : instance_status;
  inst_params : json
}.

Inductive call :=
| CallGet (id : jsstring)
| CallStatus (id : jsstring)
| CallCreate (params : json).

(** The state behind the [MY_WORKFLOW] binding: the instances that exist
    and the calls made to the binding so far. *)
Record runtime := {
  instances : gmap jsstring instance;
  calls : list call
}.

(** What the runtime decides on its own: whether a call fails, and the
    identifier of a new instance. *)
Record binding := {
  fault : list call -> option exn;
  new_id : runtime -> jsstring
}.

Section Fetch.

Variable wfb : binding.

Definition called (c : call) (rt : runtime) : runtime :=
  {| instances := instances rt; calls := calls rt ++ [c] |}.

(** Modelled from the spec: [env.MY_WORKFLOW.get(id)], the lookup of an
    instance by identifier.  It resolves to the instance when one exists
    under that identifier, to [null] when the identifier is unknown, and
    rejects when the lookup itself fails. *)
Definition wf_get (id : jsstring) : eff runtime (option jsstring) :=
  fun rt =>
    match fault wfb (calls rt) with
    | Some e => (Throw e, called (CallGet id) rt)
    | None =>
        match instances rt !! id with
        | Some _ => (Ok (Some id), called (CallGet id) rt)
        | None => (Ok None, called (CallGet id) rt)
        end
    end.

(** Modelled from the spec: [instance.status()]. *)
Definition wf_status (id : jsstring) : eff runtime instance_status :=
  fun rt =>
    match fault wfb (calls rt) with
    | Some e => (Throw e, called (CallStatus id) rt)
    | None =>
        match instances rt !! id with
        | Some i => (Ok (inst_status i), called (CallStatus id) rt)
        | None =>
            (Throw (Error (lit "instance.not_found")),
             called (CallStatus id) rt)
        end
    end.

(** Modelled from the spec: [env.MY_WORKFLOW.create({ params })]: a new
    instance, queued, under an identifier the runtime assigns. *)
Definition wf_create (params : json) : eff runtime jsstring :=
  fun rt =>
    match fault wfb (calls rt) with
    | Some e => (Throw e, called (CallCreate params) rt)
    | None =>
        let id := new_id wfb rt in
        (Ok id,
         {| instances :=
              <[id := {| inst_status := Queued; inst_params := params |}]>
              (instances rt);
            calls := calls rt ++ [CallCreate params] |})
    end.

(** The [InstanceStatus] object as it is serialized. *)
Definition status_json (s : instance_status) : json :=
  match s with
  | Queued => JObj [(lit "status", JStr (lit "queued"))]
  | Running => JObj [(lit "status", JStr (lit "running"))]
  | Complete out =>
      JObj [(lit "status", JStr (lit "complete"));
            (lit "output",
             JObj [(lit "downloadUrl", JStr (downloadUrl out))])]
  | Errored msg =>
      JObj [(lit "status", JStr (lit "errored")); (lit "error", JStr msg)]
  end.

Definition cors : jsstring * jsstring :=
  (lit "Access-Control-Allow-Origin", lit "*").

(** The header [new Response] adds by itself when the body is a string
    and the headers it is given name no content type. *)
Definition text_plain : jsstring * jsstring :=
  (lit "content-type", lit "text/plain;charset=UTF-8").

Definition json_headers : list (jsstring * jsstring) :=
  [(lit "Content-Type", lit "application/json"); cors].

Definition json_response (st : N) (j : json) : http_response :=
  {| status := st; headers := json_headers; payload := BodyJson j |}.

Definition error_json (msg : jsstring) : json :=
  JObj [(lit "error", JStr msg)].

Definition id_status_json (id : jsstring) (s : instance_status) : json :=
  JObj [(lit "id", JStr id); (lit "status", status_json s)].

(** [!instanceId] for the result of [searchParams.get]. *)
Definition no_id (instanceId : option jsstring) : bool :=
  match instanceId with
  | None => true
  | Some s => negb (truthy_str s)
  end.

Definition missing_id_response : http_response :=
  {| status := 400;
     headers := [cors; text_plain];
     payload := BodyText
       (lit "Missing workflow instance ID. Use /status?id=your-instance-id") |}.

(** Lines 184 to 225: the lookup, inside its own [try]. *)
Definition status_lookup (instanceId : jsstring) : eff runtime http_response :=
  catch
    (let* instance := wf_get instanceId in
     match instance with
     | None =>
         ret (json_response 404 (error_json (lit "Workflow instance not found")))
     | Some id =>
         let* status := wf_status id in
         ret (json_response 200 (id_status_json id status))
     end)
    (fun err =>
       ret (json_response 500
              (error_json (lit "Failed to get workflow status: "
                           ++ exn_to_string err)))).

(** Lines 229 to 258: the creation of an instance. *)
Definition create_instance (req : request) : eff runtime http_response :=
  let* payload := lift (body req) in
  let sitemapUrl := opt_prop (Some payload) (lit "sitemapUrl") in
  if negb (truthy sitemapUrl) || negb (typeof_string sitemapUrl) then
    ret (json_response 400
           (error_json (lit "Missing or invalid sitemapUrl in request body.")))
  else
    let* id := wf_create payload in
    let* status := wf_status id in
    ret (json_response 200 (id_status_json id status)).

Definition options_response : http_response :=
  {| status := 200;
     headers := [cors;
                 (lit "Access-Control-Allow-Methods", lit "GET, POST, OPTIONS");
                 (lit "Access-Control-Allow-Headers", lit "Content-Type")];
     payload := BodyNull |}.

(** The worker's [fetch(req, env)]. *)
Definition fetch (req : request) : eff runtime http_response :=
  catch
    (if str_eqb (pathname req) (lit "/status")
        && str_eqb (method req) (lit "GET")
     then
       let instanceId := query_id req in
       if no_id instanceId then ret missing_id_response
       else status_lookup (default [] instanceId)
     else if str_eqb (method req) (lit "POST") then create_instance req
     else if str_eqb (method req) (lit "OPTIONS") then ret options_response
     else ret (json_response 404 (error_json (lit "Not found"))))
    (fun err =>
       ret (json_response 500
              (error_json (lit "Failed to process request: "
                           ++ exn_to_string err)))).

End Fetch.

End Handler.

(** * Specification-side definitions *)

(** The spec's words: duplicates removed, first-seen order preserved.  The
    head is kept and never appears again in what follows. *)
Fixpoint first_seen (l : list jsstring) : list jsstring :=
  match l with
  | [] => []
  | x :: l' => x :: List.filter (fun y => negb (str_eqb y x)) (first_seen l')
  end.


(** What the two patterns capture in a document: the [<loc>] captures
    followed by the anchor captures. *)
Definition link_captures (xml : jsstring) : list jsstring :=
  matchAll_captures match_loc xml ++ matchAll_captures match_anchor xml.

(** The step an event belongs to: a step's own invocation, or an effect
    that only that step's body performs. *)
Definition owner (ev : event) : jsstring :=
  match ev with
  | EvInvoke name => name
  | EvFetch _ => Workflow.step2
  | EvScrape _ _ | EvWarn _ | EvSleep _ => Workflow.step3
  | EvNow | EvPut _ _ => Workflow.step4
  end.

(** The five steps in the order [run] goes through them. *)
Definition step_names : list jsstring :=
  [Workflow.step1; Workflow.step2; Workflow.step3; Workflow.step4;
   Workflow.step5].

(** The steps that come before a step of the workflow. *)
Fixpoint steps_before (name : jsstring) (names : list jsstring)
  : list jsstring :=
  match names with
  | [] => []
  | n :: names' =>
      if str_eqb n name then [] else n :: steps_before name names'
  end.

Definition earlier (name : jsstring) : list jsstring :=
  if existsb (str_eqb name) step_names then steps_before name step_names
  else [].

(** Whether a step has a committed result in a log. *)
Definition committed (log : gmap jsstring Workflow.value) (name : jsstring)
  : Prop :=
  is_Some (log !! name).

(** The events an execution added to the history it started from. *)
Definition fresh_events (before after : list event) : list event :=
  skipn (length before) after.

(** A computation only adds events, and only events that satisfy [P]. *)
Definition emits_only {A} (P : event -> Prop) (m : io A) : Prop :=
  forall h, exists new, snd (m h) = h ++ new /\ Forall P new.

(** No event is followed by an event of a step that comes before its own. *)
Fixpoint in_step_order (evs : list event) : Prop :=
  match evs with
  | [] => True
  | ev :: evs' =>
      Forall (fun later => ~ In (owner later) (earlier (owner ev))) evs'
      /\ in_step_order evs'
  end.

(** What holds of a stretch of the workflow that starts when the steps
    [done] are committed: the log only grows; the new events belong to
    steps that were not committed at the start, come in step order, and
    each finds the steps before its own committed in the end; and when the
    stretch returns, every step of the workflow is committed. *)
Definition staged {A} (done : list jsstring) (m : Workflow.wf A) : Prop :=
  forall log h,
    Forall (committed log) done ->
    let e := m log h in
    log ⊆ Workflow.log_after e
    /\ (exists new,
           Workflow.history e = h ++ new
           /\ Forall (fun ev =>
                        ~ committed log (owner ev)
                        /\ Forall (committed (Workflow.log_after e))
                                  (earlier (owner ev))) new
           /\ in_step_order new)
    /\ (forall a, Workflow.result e = Ok a ->
                  Forall (committed (Workflow.log_after e)) step_names).




(** The events of one turn of the scraping loop when the service answers
    [answer u]: the request, then the delay after a success or the warning
    after a refusal. *)
Definition turn_events (auth : jsstring)
  (answer : jsstring -> response jsstring) (u : jsstring) : list event :=
  EvScrape auth u
  :: (if r_ok (answer u) then [EvSleep 3000]
      else [EvWarn (lit "Failed to scrape: " ++ u)]).

(** ** Sample worlds, for concrete executions *)

Module Sample.

Definition ok_response {B} (b : B) : response B :=
  {| r_status := 200; r_statusText := lit "OK"; r_body := Ok b |}.

Definition error_response {B} (st : N) (text : jsstring) : response B :=
  {| r_status := st;
     r_statusText := text;
     r_body := Throw (Error (lit "Unexpected end of JSON input")) |}.

(** A world whose sitemap and pages answer the same way at any time, whose
    bucket accepts every object and whose clock stands still. *)
Definition world (sitemap : response jsstring)
  (pages : jsstring -> response jsstring) : services :=
  {| SCRAPING_API_TOKEN := lit "secret";
     http_get := fun _ _ => Ok sitemap;
     scrape_post := fun _ url => Ok (pages url);
     bucket_put := fun _ _ _ => Ok tt;
     now_iso := fun _ => lit "2025-01-02T03:04:05.678Z";
     strToU8 := fun s => s;
     zipSync := fun entries => Ok (concat (map snd entries)) |}.

Definition sitemap_url : jsstring := lit "https://example.com/sitemap.xml".

Definition two_pages : jsstring :=
  lit "<urlset><url><loc>https://example.com/a</loc></url><url><loc>https://example.com/b</loc></url></urlset>".

(** Twelve distinct links: [https://example.com/p0] to [.../p11], one of
    them listed twice. *)
Definition twelve_pages : jsstring :=
  lit "<loc>https://example.com/p0</loc><loc>https://example.com/p1</loc><loc>https://example.com/p0</loc><loc>https://example.com/p2</loc><loc>https://example.com/p3</loc><loc>https://example.com/p4</loc><loc>https://example.com/p5</loc><loc>https://example.com/p6</loc><loc>https://example.com/p7</loc><loc>https://example.com/p8</loc><loc>https://example.com/p9</loc><a href=" ++ dquote ++ lit "https://example.com/p10" ++ dquote ++ lit "></a><a href=" ++ dquote ++ lit "https://example.com/p11" ++ dquote ++ lit ">".

(** A well-formed sitemap that lists no page. *)
Definition no_pages : jsstring := lit "<urlset></urlset>".

Definition markdown_of (url : jsstring) : response jsstring :=
  ok_response (lit "# " ++ url).

(** A binding whose calls never fail and whose new instance is [run-1]. *)
Definition calm : Handler.binding :=
  {| Handler.fault := fun _ => None;
     Handler.new_id := fun _ => lit "run-1" |}.

(** A binding whose every call fails. *)
Definition broken : Handler.binding :=
  {| Handler.fault := fun _ => Some (Error (lit "Network connection lost."));
     Handler.new_id := fun _ => lit "run-1" |}.

(** A runtime that holds one instance, [run-1], running. *)
Definition one_running : Handler.runtime :=
  {| Handler.instances :=
       {[ lit "run-1" :=
            {| Handler.inst_status := Workflow.Running;
               Handler.inst_params :=
                 JObj [(lit "sitemapUrl",
                        JStr (lit "https://example.com/sitemap.xml"))] |} ]};
     Handler.calls := [] |}.

Definition status_request (id : option jsstring) : Handler.request :=
  {| Handler.method := lit "GET";
     Handler.pathname := lit "/status";
     Handler.query_id := id;
     Handler.body := Throw (Error (lit "Unexpected end of JSON input")) |}.

Definition create_request (j : json) : Handler.request :=
  {| Handler.method := lit "POST";
     Handler.pathname := lit "/";
     Handler.query_id := None;
     Handler.body := Ok j |}.

Definition payload : jsval :=
  Some (JObj [(lit "sitemapUrl", JStr sitemap_url)]).

(** A default policy of two retries. *)
Definition two_retries : Workflow.step_config :=
  {| Workflow.retries_limit := 2;
     Workflow.retries_delay := 10000;
     Workflow.retries_backoff := Workflow.Exponential;
     Workflow.timeout := lit "10 minutes" |}.

Definition unavailable (url : jsstring) : response jsstring :=
  error_response 503 (lit "Service Unavailable").

Definition page_a : jsstring := lit "https://example.com/a".
Definition page_b : jsstring := lit "https://example.com/b".
Definition home_page : jsstring := lit "https://example.com/".

(** The extraction service refuses [page_a] and converts any other page. *)
Definition a_fails (url : jsstring) : response jsstring :=
  if str_eqb url page_a then error_response 429 (lit "Too Many Requests")
  else markdown_of url.

(** A run in which the extraction service is down: Scrape Pages fails
    after its retries, the two steps before it are committed. *)
Definition interrupted_run : Workflow.exec final_result :=
  Workflow.run (world (ok_response two_pages) unavailable) two_retries
    payload ∅ [].

(** The same instance executed again, from the log the first execution
    left, when the service is back. *)
Definition resumed_run : Workflow.exec final_result :=
  Workflow.run (world (ok_response two_pages) markdown_of) two_retries
    payload (Workflow.log_after interrupted_run)
    (Workflow.history interrupted_run).

End Sample.

(** * Further specification-side definitions *)

(** [pieces.join(sep)] for a one-character separator. *)
Fixpoint join (sep : N) (pieces : list jsstring) : jsstring :=
  match pieces with
  | [] => []
  | p :: rest =>
      match rest with
      | [] => p
      | _ :: _ => p ++ sep :: join sep rest
      end
  end.


(** How many events of a kind a history holds. *)
Definition count (kind : event -> bool) (evs : list event) : nat :=
  length (List.filter kind evs).

Definition is_fetch (ev : event) : bool :=
  match ev with EvFetch _ => true | _ => false end.

(** A stretch of the workflow that adds at most [n] sitemap requests to
    the history, whatever log and history it starts from. *)
Definition fetches_at_most {A} (n : nat) (m : Workflow.wf A) : Prop :=
  forall log h,
    exists new,
      Workflow.history (m log h) = h ++ new
      /\ (count is_fetch new <= n)%nat.

(** The prefixes the five steps put before the message of what they
    catch. *)
Definition step_prefixes : list jsstring :=
  [lit "Get Sitemap URL failed: ";
   lit "Fetch & Parse Sitemap failed: ";
   lit "Scrape Pages failed: ";
   lit "Zip and Upload to R2 failed: ";
   lit "Generate Result failed: "].

(** An error made by [new Error] whose message begins with one of the
    step prefixes. *)
Definition names_its_step (e : exn) : Prop :=
  exn_name e = lit "Error"
  /\ exists prefix rest,
       In prefix step_prefixes /\ exn_message e = prefix ++ rest.

(** ** More sample worlds *)

Module Scenes.

(** The extraction service refuses [page_a]; the sitemap lists two pages. *)
Definition skipping : services :=
  Sample.world (Sample.ok_response Sample.two_pages) Sample.a_fails.

(** Every page is converted. *)
Definition steady : services :=
  Sample.world (Sample.ok_response Sample.two_pages) Sample.markdown_of.

(** The connection breaks on the request for [page_b]. *)
Definition flaky : services :=
  {| SCRAPING_API_TOKEN := lit "secret";
     http_get := fun _ _ => Ok (Sample.ok_response Sample.two_pages);
     scrape_post := fun _ url =>
       if str_eqb url Sample.page_b
       then Throw (Error (lit "Network connection lost."))
       else Ok (Sample.markdown_of url);
     bucket_put := fun _ _ _ => Ok tt;
     now_iso := fun _ => lit "2025-01-02T03:04:05.678Z";
     strToU8 := fun s => s;
     zipSync := fun entries => Ok (concat (map snd entries)) |}.

(** The sitemap answers 500. *)
Definition down : services :=
  Sample.world (Sample.error_response 500 (lit "Internal Server Error"))
               Sample.markdown_of.

Definition page_of_b : page :=
  {| fileName := lit "b.md"; content := lit "# https://example.com/b" |}.

Definition page_of_a : page :=
  {| fileName := lit "a.md"; content := lit "# https://example.com/a" |}.

(** Two versions of [a.md] and one [b.md]. *)
Definition first_a : page := {| fileName := lit "a.md"; content := lit "old" |}.
Definition second_a : page := {| fileName := lit "a.md"; content := lit "new" |}.



(** A runtime without instances. *)
Definition no_instances : Handler.runtime :=
  {| Handler.instances := ∅; Handler.calls := [] |}.

Definition good_body : json :=
  JObj [(lit "sitemapUrl", JStr Sample.sitemap_url)].

Definition bad_body : json := JObj [(lit "sitemapUrl", JNum 42 0)].



Definition delete_request : Handler.request :=
  {| Handler.method := lit "DELETE";
     Handler.pathname := lit "/status";
     Handler.query_id := Some (lit "run-1");
     Handler.body := Throw (Error (lit "Unexpected end of JSON input")) |}.

Definition garbled_request : Handler.request :=
  {| Handler.method := lit "POST";
     Handler.pathname := lit "/";
     Handler.query_id := None;
     Handler.body := Throw (Error (lit "Unexpected token < in JSON")) |}.

End Scenes.
(** * Properties *)

(** ** Strings and patterns *)

Lemma starts_with_app (p s : jsstring) : starts_with p (p ++ s) = true.
Proof.
  induction p as [|a p IH]; simpl; [reflexivity|].
  rewrite N.eqb_refl. exact IH.
Qed.

Lemma starts_with_inv (p s : jsstring) :
  starts_with p s = true -> s = p ++ skipn (length p) s.
Proof.
  revert s. induction p as [|a p IH]; intros s H; simpl in *; [reflexivity|].
  destruct s as [|b s]; [discriminate|].
  apply andb_true_iff in H as [Hab Hp].
  apply N.eqb_eq in Hab. subst b. simpl. f_equal. apply IH, Hp.
Qed.

(** A match of [(.*?)close] splits the string into the capture, [close]
    and the rest; the capture holds no line terminator, and [close] does
    not stand anywhere inside the part of the string the capture covers. *)
Lemma lazy_until_inv (close s cap rest : jsstring) :
  lazy_until close s = Some (cap, rest) ->
  s = cap ++ close ++ rest
  /\ Forall (fun c => is_line_terminator c = false) cap.
Proof.
  revert cap rest. induction s as [|c s IH]; intros cap rest H.
  - simpl in H. destruct (starts_with close []) eqn:E; [|discriminate].
    inversion H; subst. split; [|constructor].
    apply starts_with_inv in E. simpl. exact E.
  - cbn [lazy_until] in H.
    destruct (starts_with close (c :: s)) eqn:E.
    + inversion H; subst. split; [|constructor].
      apply starts_with_inv in E. exact E.
    + destruct (is_line_terminator c) eqn:Hc; [discriminate|].
      destruct (lazy_until close s) as [[cap' rest']|] eqn:Hl; [|discriminate].
      inversion H; subst.
      destruct (IH _ _ eq_refl) as [Hs Hf].
      split; [simpl; f_equal; exact Hs|constructor; assumption].
Qed.

(** ** Deduplication in first-seen order *)

Lemma str_eqb_eq (a b : jsstring) : str_eqb a b = true <-> a = b.
Proof. unfold str_eqb. apply bool_decide_eq_true. Qed.

Lemma str_eqb_neq (a b : jsstring) : str_eqb a b = false <-> a <> b.
Proof. unfold str_eqb. apply bool_decide_eq_false. Qed.

Lemma existsb_str_eqb (x : jsstring) (acc : list jsstring) :
  existsb (str_eqb x) acc = true <-> In x acc.
Proof.
  rewrite existsb_exists. split.
  - intros [y [Hy E]]. apply str_eqb_eq in E. subst. exact Hy.
  - intros H. exists x. split; [exact H|]. apply str_eqb_eq. reflexivity.
Qed.

Lemma filter_filter_comm {A} (p q : A -> bool) (l : list A) :
  List.filter p (List.filter q l) = List.filter q (List.filter p l).
Proof.
  induction l as [|a l IH]; simpl; [reflexivity|].
  destruct (p a) eqn:Hp, (q a) eqn:Hq; simpl; rewrite ?Hp, ?Hq, IH; reflexivity.
Qed.

Lemma filter_absorb {A} (p q : A -> bool) (l : list A) :
  (forall a, p a = true -> q a = true) ->
  List.filter p (List.filter q l) = List.filter p l.
Proof.
  intros H. induction l as [|a l IH]; simpl; [reflexivity|].
  destruct (q a) eqn:Hq; simpl.
  - rewrite IH. reflexivity.
  - destruct (p a) eqn:Hp; [|exact IH].
    apply H in Hp. congruence.
Qed.

Lemma first_seen_filter (p : jsstring -> bool) (l : list jsstring) :
  first_seen (List.filter p l) = List.filter p (first_seen l).
Proof.
  induction l as [|x l IH]; simpl; [reflexivity|].
  destruct (p x) eqn:Hp; simpl.
  - rewrite ?Hp, IH. f_equal. apply filter_filter_comm.
  - rewrite IH. symmetry. apply filter_absorb.
    intros a Ha. apply negb_true_iff, str_eqb_neq. intros ->. congruence.
Qed.

Lemma first_seen_In (l : list jsstring) (x : jsstring) :
  In x (first_seen l) <-> In x l.
Proof.
  induction l as [|y l IH]; simpl; [tauto|].
  rewrite filter_In, IH, negb_true_iff, str_eqb_neq.
  destruct (decide (y = x)); [tauto|]. intuition congruence.
Qed.

Lemma NoDup_filter_bool {A} (p : A -> bool) (l : list A) :
  List.NoDup l -> List.NoDup (List.filter p l).
Proof.
  induction 1 as [|a l Hn Hd IH]; simpl; [constructor|].
  destruct (p a); [|exact IH].
  constructor; [|exact IH]. rewrite filter_In. tauto.
Qed.

Lemma first_seen_NoDup (l : list jsstring) : List.NoDup (first_seen l).
Proof.
  induction l as [|x l IH]; simpl; constructor.
  - rewrite filter_In, negb_true_iff, str_eqb_neq. tauto.
  - apply NoDup_filter_bool, IH.
Qed.

(** An element keeps the place of its first occurrence: it comes right
    after the distinct elements that precede that occurrence. *)
Lemma first_seen_first_occurrence (l1 l2 : list jsstring) (x : jsstring) :
  ~ In x l1 ->
  exists tl, first_seen (l1 ++ x :: l2) = first_seen l1 ++ x :: tl.
Proof.
  induction l1 as [|y l1 IH]; intros Hx; simpl.
  - eexists. reflexivity.
  - destruct IH as [tl Htl]; [simpl in Hx; tauto|].
    rewrite Htl, List.filter_app. simpl.
    assert (E : str_eqb x y = false)
      by (apply str_eqb_neq; intros ->; simpl in Hx; tauto).
    rewrite E. simpl. eexists. reflexivity.
Qed.

(** The set built by the source is the first-seen deduplication. *)
Lemma fold_set_add (l acc : list jsstring) :
  fold_left set_add l acc
  = acc ++ first_seen (List.filter (fun x => negb (existsb (str_eqb x) acc)) l).
Proof.
  revert acc. induction l as [|x l IH]; intros acc; simpl.
  - rewrite app_nil_r. reflexivity.
  - unfold set_add at 2. destruct (existsb (str_eqb x) acc) eqn:E; simpl.
    + apply IH.
    + rewrite IH, <- app_assoc. simpl. do 2 f_equal.
      rewrite <- first_seen_filter. f_equal.
      clear. induction l as [|a l IH]; simpl; [reflexivity|].
      rewrite existsb_app. simpl. rewrite orb_false_r.
      destruct (existsb (str_eqb a) acc) eqn:Ea, (str_eqb a x) eqn:Ex; simpl;
        rewrite ?Ex; simpl; rewrite ?IH; try reflexivity.
Qed.

Lemma set_of_first_seen (l : list jsstring) : set_of l = first_seen l.
Proof.
  unfold set_of. rewrite fold_set_add. simpl. f_equal.
  induction l as [|x l IH]; simpl; congruence.
Qed.

(** ** Fetch & Parse Sitemap *)

Section SitemapLinks.

Import Workflow.

Lemma parse_urls_links (xml : jsstring) :
  link_captures xml <> [] ->
  parse_urls xml = Ok (firstn 10 (first_seen (link_captures xml))).
Proof.
  intros H. unfold parse_urls, slice0. fold (link_captures xml).
  rewrite set_of_first_seen.
  destruct (link_captures xml) as [|x l]; [congruence|]. reflexivity.
Qed.

Lemma parse_urls_no_links (xml : jsstring) :
  link_captures xml = [] ->
  parse_urls xml = Throw (Error (lit "No URLs found in sitemap.")).
Proof.
  intros H. unfold parse_urls. fold (link_captures xml).
  rewrite H. reflexivity.
Qed.

Lemma more_than_ten_unique (caps us : list jsstring) :
  List.NoDup us -> incl us caps -> (10 < length us)%nat ->
  length (firstn 10 (first_seen caps)) = 10%nat.
Proof.
  intros Hnd Hin Hlen.
  assert (length us <= length (first_seen caps))%nat.
  { apply List.NoDup_incl_length; [exact Hnd|].
    intros u Hu. apply first_seen_In, Hin, Hu. }
  rewrite length_take. lia.
Qed.

(** C2, as the code has it: for every body of a successful sitemap
    response in which the two patterns capture at least one link, the
    Fetch & Parse Sitemap step returns the captures of [<loc>] followed by
    the anchor captures, deduplicated by string equality in first-seen
    order and cut to the first 10: the result has no duplicates, holds only
    captured links, has at most 10 entries, and has exactly 10 as soon as
    more than 10 distinct links are captured. *)
Theorem sitemap_links_deduplicated_and_capped
  (svc : services) (h : list event) (url xml : jsstring)
  (r : response jsstring) :
  http_get svc h url = Ok r ->
  r_ok r = true ->
  r_body r = Ok xml ->
  link_captures xml <> [] ->
  let urls := firstn 10 (first_seen (link_captures xml)) in
  fetch_and_parse svc url h = (Ok urls, h ++ [EvFetch url])
  /\ List.NoDup urls
  /\ (forall u, In u urls -> In u (link_captures xml))
  /\ (length urls <= 10)%nat
  /\ (forall us, List.NoDup us -> incl us (link_captures xml) ->
        (10 < length us)%nat -> length urls = 10%nat).
Proof.
  intros Hget Hok Hbody Hcaps urls. repeat split.
  - unfold fetch_and_parse, try_catch, catch, bind, do_fetch, lift, throw.
    rewrite Hget, Hok, Hbody. simpl.
    rewrite parse_urls_links by exact Hcaps. reflexivity.
  - pose proof (first_seen_NoDup (link_captures xml)) as Hnd.
    rewrite <- (firstn_skipn 10 (first_seen _)) in Hnd.
    apply List.NoDup_app_remove_r in Hnd. exact Hnd.
  - intros u Hu. apply first_seen_In. subst urls.
    rewrite <- (firstn_skipn 10 (first_seen _)).
    apply in_or_app. left. exact Hu.
  - subst urls. rewrite length_take. lia.
  - intros us Hnd Hin Hlen. apply (more_than_ten_unique _ us); assumption.
Qed.

(** Twelve distinct links in the document: the first ten are returned. *)
Lemma sitemap_links_witness :
  fetch_and_parse
    (Sample.world (Sample.ok_response Sample.twelve_pages) Sample.markdown_of)
    Sample.sitemap_url []
  = (Ok (map lit ["https://example.com/p0"; "https://example.com/p1";
                  "https://example.com/p2"; "https://example.com/p3";
                  "https://example.com/p4"; "https://example.com/p5";
                  "https://example.com/p6"; "https://example.com/p7";
                  "https://example.com/p8"; "https://example.com/p9"]%string),
     [EvFetch Sample.sitemap_url]).
Proof.
  refine (eq_trans
    (proj1 (sitemap_links_deduplicated_and_capped
              (Sample.world (Sample.ok_response Sample.twelve_pages)
                            Sample.markdown_of)
              [] Sample.sitemap_url Sample.twelve_pages
              (Sample.ok_response Sample.twelve_pages) _ _ _ _)) _).
  - reflexivity.
  - reflexivity.
  - reflexivity.
  - vm_compute. discriminate.
  - vm_compute. reflexivity.
Defined.

(** C2 as it is worded fails on a document without links: the union of
    the captures is empty, and the step throws instead of returning it. *)
Lemma sitemap_without_links_is_refused :
  link_captures Sample.no_pages = []
  /\ fst (fetch_and_parse
            (Sample.world (Sample.ok_response Sample.no_pages)
                          Sample.markdown_of)
            Sample.sitemap_url [])
     = Throw (Error (lit "Fetch & Parse Sitemap failed: No URLs found in sitemap."))
  /\ fst (fetch_and_parse
            (Sample.world (Sample.ok_response Sample.no_pages)
                          Sample.markdown_of)
            Sample.sitemap_url [])
     <> Ok (firstn 10 (first_seen (link_captures Sample.no_pages))).
Proof.
  split; [|split].
  - vm_compute. reflexivity.
  - vm_compute. reflexivity.
  - vm_compute. discriminate.
Qed.

End SitemapLinks.

(** ** Scrape Pages *)

Section ScrapePages.

Import Workflow.

Variable svc : services.



(** What the loop does, turn by turn, when every URL is answered. *)
Lemma scrape_loop_trace (answer : jsstring -> response jsstring)
  (urls : list jsstring) (out : list page) (h : list event) :
  (forall hist u, In u urls -> scrape_post svc hist u = Ok (answer u)) ->
  (forall u, In u urls -> r_ok (answer u) = true ->
             exists markdown, r_body (answer u) = Ok markdown) ->
  snd (scrape_loop svc urls out h)
  = h ++ flat_map
           (turn_events (lit "Bearer " ++ SCRAPING_API_TOKEN svc) answer) urls.
Proof.
  revert out h. induction urls as [|u urls IH]; intros out h Ha Hb.
  - simpl. rewrite app_nil_r. reflexivity.
  - cbn [scrape_loop flat_map]. unfold bind, do_scrape, emit, lift, turn_events.
    rewrite (Ha h u) by (left; reflexivity).
    assert (Ha' : forall hist v, In v urls ->
                                 scrape_post svc hist v = Ok (answer v))
      by (intros hist v Hv; apply Ha; right; exact Hv).
    assert (Hb' : forall v, In v urls -> r_ok (answer v) = true ->
                            exists markdown, r_body (answer v) = Ok markdown)
      by (intros v Hv; apply Hb; right; exact Hv).
    destruct (r_ok (answer u)) eqn:Hok; simpl.
    + destruct (Hb u (or_introl eq_refl) Hok) as [md ->].
      rewrite IH by assumption. rewrite <- !app_assoc. reflexivity.
    + rewrite IH by assumption. rewrite <- !app_assoc. reflexivity.
Qed.



End ScrapePages.


(** In that world the step returns the page of the second URL. *)
Lemma scrape_pages_sample_run :
  Workflow.scrape_pages
    (Sample.world (Sample.ok_response Sample.two_pages) Sample.a_fails)
    [Sample.page_a; Sample.page_b] []
  = (Ok [{| fileName := lit "b.md";
            content := lit "# https://example.com/b" |}],
     [EvScrape (lit "Bearer secret") Sample.page_a;
      EvWarn (lit "Failed to scrape: https://example.com/a");
      EvScrape (lit "Bearer secret") Sample.page_b;
      EvSleep 3000]).
Proof. vm_compute. reflexivity. Qed.

(** C4 at a failing input.  The service refuses the first of two pages:
    the request for the second page follows the warning at once, and the
    only delay of the loop comes after the page that succeeded. *)
Theorem skipped_page_is_not_followed_by_a_delay :
  snd (Workflow.scrape_pages
         (Sample.world (Sample.ok_response Sample.two_pages) Sample.a_fails)
         [Sample.page_a; Sample.page_b] [])
  = [EvScrape (lit "Bearer secret") Sample.page_a;
     EvWarn (lit "Failed to scrape: https://example.com/a");
     EvScrape (lit "Bearer secret") Sample.page_b;
     EvSleep 3000].
Proof. vm_compute. reflexivity. Qed.

(** ** File names *)

(** The name of a file is never the bare extension. *)
Lemma file_name_never_bare_extension (url : jsstring) :
  Workflow.file_name_of url <> lit ".md".
Proof.
  unfold Workflow.file_name_of. intros E.
  apply (f_equal (@length N)) in E. rewrite length_app in E.
  destruct (pop _) as [[|c s]|]; simpl in E; lia.
Qed.

Lemma split_last_piece (sep : N) (base seg : jsstring) :
  ~ In sep seg ->
  exists p ps, split sep (base ++ sep :: seg) = p :: ps ++ [seg].
Proof.
  intros Hn. induction base as [|c base (p & ps & IH)]; simpl.
  - rewrite N.eqb_refl. exists [], [].
    induction seg as [|d seg IHs]; simpl; [reflexivity|].
    destruct (N.eqb_spec d sep) as [->|_]; [simpl in Hn; tauto|].
    assert (Hn' : ~ In sep seg) by (simpl in Hn; tauto).
    specialize (IHs Hn'). injection IHs as ->. reflexivity.
  - rewrite IH. destruct (c =? sep).
    + exists [], (p :: ps). reflexivity.
    + exists (c :: p), ps. reflexivity.
Qed.

(** A URL that ends in a slash and a piece without slash is named after
    that piece. *)
Lemma file_name_last_segment (base seg : jsstring) :
  seg <> [] -> ~ In 47 seg ->
  Workflow.file_name_of (base ++ 47 :: seg) = seg ++ lit ".md".
Proof.
  intros Hne Hn. unfold Workflow.file_name_of, pop.
  destruct (split_last_piece 47 base seg Hn) as (p & ps & ->).
  change (p :: ps ++ [seg]) with ((p :: ps) ++ [seg]).
  rewrite List.filter_app. simpl.
  destruct seg as [|c seg]; [congruence|]. simpl.
  rewrite last_snoc. reflexivity.
Qed.

(** C5 at a failing input.  The home page of a site has a path without
    segments; its file is named after the host, not by the fallback. *)
Theorem home_page_is_named_after_the_host :
  Workflow.file_name_of (lit "https://example.com/") = lit "example.com.md"
  /\ Workflow.file_name_of (lit "https://example.com/")
     <> lit "index" ++ lit ".md".
Proof. split; [vm_compute; reflexivity|vm_compute; discriminate]. Qed.

(** ** The HTTP handler *)

Section HandlerProperties.

Import Workflow Handler.

Variable wfb : binding.

Lemma not_get_not_status (req : request) :
  method req <> lit "GET" ->
  str_eqb (pathname req) (lit "/status") && str_eqb (method req) (lit "GET")
  = false.
Proof.
  intros H. apply andb_false_iff. right. apply str_eqb_neq. exact H.
Qed.

(** C7.  A creation request whose JSON body has no [sitemapUrl], or one
    that is not a string, is answered 400 with an [error] body, and the
    runtime is left as it was: no call reaches the workflow binding and no
    instance is created. *)
Theorem create_rejects_missing_or_invalid_url
  (req : request) (rt : runtime) (j : json) :
  method req = lit "POST" ->
  body req = Ok j ->
  opt_prop (Some j) (lit "sitemapUrl") = None
  \/ typeof_string (opt_prop (Some j) (lit "sitemapUrl")) = false ->
  fetch wfb req rt
  = (Ok {| status := 400;
           headers := json_headers;
           payload := BodyJson
             (JObj [(lit "error",
                     JStr (lit "Missing or invalid sitemapUrl in request body."))]) |},
     rt).
Proof.
  intros Hm Hb Hbad.
  assert (Hs : typeof_string (opt_prop (Some j) (lit "sitemapUrl")) = false)
    by (destruct Hbad as [-> | H]; [reflexivity | exact H]).
  unfold fetch, catch.
  rewrite not_get_not_status by (rewrite Hm; vm_compute; discriminate).
  rewrite Hm. change (str_eqb (lit "POST") (lit "POST")) with true. cbv iota.
  unfold create_instance, bind, lift. rewrite Hb, Hs.
  rewrite orb_true_r. reflexivity.
Qed.

(** C10.  A GET on [/status] without an [id] parameter is answered 400,
    and the runtime is left as it was: the workflow binding is not
    called. *)
Theorem status_without_id_is_a_bad_request (req : request) (rt : runtime) :
  pathname req = lit "/status" ->
  method req = lit "GET" ->
  query_id req = None ->
  exists resp,
    fetch wfb req rt = (Ok resp, rt)
    /\ status resp = 400
    /\ payload resp
       = BodyText
           (lit "Missing workflow instance ID. Use /status?id=your-instance-id").
Proof.
  intros Hp Hm Hq. exists missing_id_response.
  split; [|split; reflexivity].
  unfold fetch, catch. rewrite Hp, Hm, Hq. reflexivity.
Qed.

(** C9.  A status lookup with a non-empty identifier: an instance that
    exists is answered with its identifier and status; an identifier under
    which no instance exists is answered 404 with an [error] body, nothing
    of any instance in it; a lookup that fails is answered 500 with an
    [error] body. *)
Theorem status_lookup_answers
  (req : request) (rt : runtime) (id : jsstring) :
  pathname req = lit "/status" ->
  method req = lit "GET" ->
  query_id req = Some id ->
  id <> [] ->
  (forall i,
      instances rt !! id = Some i ->
      fault wfb (calls rt) = None ->
      fault wfb (calls rt ++ [CallGet id]) = None ->
      fst (fetch wfb req rt)
      = Ok {| status := 200;
              headers := json_headers;
              payload := BodyJson
                (JObj [(lit "id", JStr id);
                       (lit "status", status_json (inst_status i))]) |})
  /\ (instances rt !! id = None ->
      fault wfb (calls rt) = None ->
      fst (fetch wfb req rt)
      = Ok {| status := 404;
              headers := json_headers;
              payload := BodyJson
                (JObj [(lit "error",
                        JStr (lit "Workflow instance not found"))]) |})
  /\ (forall e,
      fault wfb (calls rt) = Some e
      \/ (is_Some (instances rt !! id)
          /\ fault wfb (calls rt) = None
          /\ fault wfb (calls rt ++ [CallGet id]) = Some e) ->
      fst (fetch wfb req rt)
      = Ok {| status := 500;
              headers := json_headers;
              payload := BodyJson
                (JObj [(lit "error",
                        JStr (lit "Failed to get workflow status: "
                              ++ exn_to_string e))]) |})
  /\ instances (snd (fetch wfb req rt)) = instances rt.
Proof.
  intros Hp Hm Hq Hid.
  assert (E : fetch wfb req rt = status_lookup wfb id rt).
  { unfold fetch, catch. rewrite Hp, Hm, Hq.
    change (str_eqb (lit "/status") (lit "/status")
            && str_eqb (lit "GET") (lit "GET")) with true.
    cbv iota. unfold no_id. destruct id as [|c id]; [congruence|].
    simpl. unfold status_lookup, catch.
    destruct (bind _ _ rt) as [[resp|e] rt']; reflexivity. }
  rewrite E. unfold status_lookup, catch, bind, wf_get, wf_status, ret.
  repeat split.
  - intros i Hi Hf1 Hf2. rewrite Hf1, Hi. simpl. rewrite Hf2, Hi. reflexivity.
  - intros Hi Hf1. rewrite Hf1, Hi. reflexivity.
  - intros e [Hf1 | ([i Hi] & Hf1 & Hf2)].
    + rewrite Hf1. reflexivity.
    + rewrite Hf1, Hi. simpl. rewrite Hf2. reflexivity.
  - destruct (fault wfb (calls rt)); [reflexivity|].
    destruct (instances rt !! id) eqn:Hi; [|reflexivity]. simpl.
    destruct (fault wfb (calls rt ++ [CallGet id])); [reflexivity|].
    rewrite Hi. reflexivity.
Qed.

End HandlerProperties.

(** Concrete requests: a creation without a string URL, a status lookup
    without identifier, and lookups of a known and of an unknown one. *)
Lemma create_rejects_witness :
  Handler.fetch Sample.calm
    (Sample.create_request (JObj [(lit "sitemapUrl", JNum 42 0)]))
    Sample.one_running
  = (Ok {| Handler.status := 400;
           Handler.headers := Handler.json_headers;
           Handler.payload := Handler.BodyJson
             (JObj [(lit "error",
                     JStr (lit "Missing or invalid sitemapUrl in request body."))]) |},
     Sample.one_running).
Proof.
  apply (create_rejects_missing_or_invalid_url Sample.calm
           (Sample.create_request (JObj [(lit "sitemapUrl", JNum 42 0)]))
           Sample.one_running
           (JObj [(lit "sitemapUrl", JNum 42 0)])).
  - reflexivity.
  - reflexivity.
  - right. reflexivity.
Defined.

(** C7 as it is worded fails on a creation request whose body is not
    JSON: such a body carries no [sitemapUrl], and the answer is 500, not
    400; no instance is created. *)
Lemma post_without_json_is_not_a_bad_request :
  Handler.fetch Sample.calm Scenes.garbled_request Scenes.no_instances
  = (Ok {| Handler.status := 500;
           Handler.headers := Handler.json_headers;
           Handler.payload := Handler.BodyJson
             (JObj [(lit "error",
                     JStr (lit "Failed to process request: Error: Unexpected token < in JSON"))]) |},
     Scenes.no_instances)
  /\ Handler.status
       {| Handler.status := 500;
          Handler.headers := Handler.json_headers;
          Handler.payload := Handler.BodyJson
            (JObj [(lit "error",
                    JStr (lit "Failed to process request: Error: Unexpected token < in JSON"))]) |}
     <> 400.
Proof. split; [vm_compute; reflexivity|discriminate]. Qed.

Lemma status_without_id_witness :
  exists resp,
    Handler.fetch Sample.calm (Sample.status_request None) Sample.one_running
    = (Ok resp, Sample.one_running)
    /\ Handler.status resp = 400
    /\ Handler.payload resp
       = Handler.BodyText
           (lit "Missing workflow instance ID. Use /status?id=your-instance-id").
Proof.
  apply (status_without_id_is_a_bad_request Sample.calm
           (Sample.status_request None) Sample.one_running);
    reflexivity.
Defined.

Lemma status_lookup_witness :
  fst (Handler.fetch Sample.calm
         (Sample.status_request (Some (lit "run-1"))) Sample.one_running)
  = Ok (Handler.json_response 200
          (JObj [(lit "id", JStr (lit "run-1"));
                 (lit "status", JObj [(lit "status", JStr (lit "running"))])]))
  /\ fst (Handler.fetch Sample.calm
            (Sample.status_request (Some (lit "run-2"))) Sample.one_running)
     = Ok (Handler.json_response 404
             (JObj [(lit "error", JStr (lit "Workflow instance not found"))]))
  /\ fst (Handler.fetch Sample.broken
            (Sample.status_request (Some (lit "run-1"))) Sample.one_running)
     = Ok (Handler.json_response 500
             (JObj [(lit "error",
                     JStr (lit "Failed to get workflow status: Error: Network connection lost."))])).
Proof.
  split; [|split].
  - refine (proj1 (status_lookup_answers Sample.calm
             (Sample.status_request (Some (lit "run-1"))) Sample.one_running
             (lit "run-1") eq_refl eq_refl eq_refl _)
             {| Handler.inst_status := Workflow.Running;
                Handler.inst_params :=
                  JObj [(lit "sitemapUrl",
                         JStr (lit "https://example.com/sitemap.xml"))] |}
             _ eq_refl eq_refl).
    + discriminate.
    + vm_compute. reflexivity.
  - refine (proj1 (proj2 (status_lookup_answers Sample.calm
             (Sample.status_request (Some (lit "run-2"))) Sample.one_running
             (lit "run-2") eq_refl eq_refl eq_refl _)) _ eq_refl).
    + discriminate.
    + vm_compute. reflexivity.
  - refine (proj1 (proj2 (proj2 (status_lookup_answers Sample.broken
             (Sample.status_request (Some (lit "run-1"))) Sample.one_running
             (lit "run-1") eq_refl eq_refl eq_refl _)))
             (Error (lit "Network connection lost.")) (or_introl eq_refl)).
    discriminate.
Defined.

(** ** Events of the step bodies *)

Section Effects.

Import Workflow.

Variable svc : services.

Lemma emits_ret {A} (P : event -> Prop) (a : A) : emits_only P (ret a).
Proof. intros h. exists []. rewrite app_nil_r. split; [reflexivity|constructor]. Qed.

Lemma emits_throw {A} (P : event -> Prop) (e : exn) :
  emits_only P (@throw _ A e).
Proof. intros h. exists []. rewrite app_nil_r. split; [reflexivity|constructor]. Qed.

Lemma emits_lift {A} (P : event -> Prop) (o : outcome A) :
  emits_only P (lift o).
Proof. intros h. exists []. rewrite app_nil_r. split; [reflexivity|constructor]. Qed.

Lemma emits_emit (P : event -> Prop) (ev : event) :
  P ev -> emits_only P (emit ev).
Proof. intros H h. exists [ev]. split; [reflexivity|repeat constructor; exact H]. Qed.

Lemma emits_bind {A B} (P : event -> Prop) (m : io A) (k : A -> io B) :
  emits_only P m -> (forall a, emits_only P (k a)) -> emits_only P (bind m k).
Proof.
  intros Hm Hk h. unfold bind.
  destruct (Hm h) as [new1 [E1 F1]].
  destruct (m h) as [[a|e] h1]; simpl in E1; subst h1.
  - destruct (Hk a (h ++ new1)) as [new2 [E2 F2]].
    exists (new1 ++ new2). rewrite E2, app_assoc.
    split; [reflexivity|apply Forall_app; split; assumption].
  - exists new1. split; [reflexivity|exact F1].
Qed.

Lemma emits_catch {A} (P : event -> Prop) (m : io A) (k : exn -> io A) :
  emits_only P m -> (forall e, emits_only P (k e)) -> emits_only P (catch m k).
Proof.
  intros Hm Hk h. unfold catch.
  destruct (Hm h) as [new1 [E1 F1]].
  destruct (m h) as [[a|e] h1]; simpl in E1; subst h1.
  - exists new1. split; [reflexivity|exact F1].
  - destruct (Hk e (h ++ new1)) as [new2 [E2 F2]].
    exists (new1 ++ new2). rewrite E2, app_assoc.
    split; [reflexivity|apply Forall_app; split; assumption].
Qed.

Lemma emits_try_catch {A} (P : event -> Prop) (prefix : jsstring) (m : io A) :
  emits_only P m -> emits_only P (try_catch prefix m).
Proof. intros H. apply emits_catch; [exact H|]. intros e. apply emits_throw. Qed.

Lemma emits_one {A} (P : event -> Prop) (ev : event)
  (f : list event -> outcome A) :
  P ev -> emits_only P (fun h => (f h, h ++ [ev])).
Proof. intros H h. exists [ev]. split; [reflexivity|repeat constructor; exact H]. Qed.

Lemma emits_attempts {A} (P : event -> Prop) (budget : nat)
  (name : jsstring) (body : io A) :
  P (EvInvoke name) -> emits_only P body ->
  emits_only P (attempts budget name body).
Proof.
  intros Hn Hb. induction budget as [|n IH]; intros h; simpl;
    destruct (Hb (h ++ [EvInvoke name])) as [new [E F]];
    destruct (body (h ++ [EvInvoke name])) as [[a|e] h1]; simpl in E; subst h1.
  1-3: exists (EvInvoke name :: new); rewrite <- app_assoc;
       split; [reflexivity|constructor; assumption].
  destruct (IH ((h ++ [EvInvoke name]) ++ new)) as [new2 [E2 F2]].
  exists (EvInvoke name :: new ++ new2). rewrite E2, <- !app_assoc.
  split; [reflexivity|]. constructor; [exact Hn|].
  apply Forall_app; split; assumption.
Qed.

Ltac emits :=
  repeat first
    [ apply emits_try_catch
    | apply emits_ret
    | apply emits_throw
    | apply emits_lift
    | apply emits_emit; reflexivity
    | apply emits_one; reflexivity
    | apply emits_bind; [|intros ?] ].

Lemma get_sitemap_url_events (payload : jsval) :
  emits_only (fun ev => owner ev = step1) (get_sitemap_url payload).
Proof.
  unfold get_sitemap_url. emits.
  destruct (negb _ || negb _); emits.
Qed.

Lemma fetch_and_parse_events (url : jsstring) :
  emits_only (fun ev => owner ev = step2) (fetch_and_parse svc url).
Proof.
  unfold fetch_and_parse, do_fetch. emits.
  destruct (negb (r_ok a)); emits.
Qed.

Lemma scrape_loop_events (urls : list jsstring) (out : list page) :
  emits_only (fun ev => owner ev = step3) (scrape_loop svc urls out).
Proof.
  revert out. induction urls as [|u urls IH]; intros out; simpl.
  - emits.
  - unfold do_scrape. emits.
    destruct (negb (r_ok a)); emits; apply IH.
Qed.

Lemma scrape_pages_events (urls : list jsstring) :
  emits_only (fun ev => owner ev = step3) (scrape_pages svc urls).
Proof.
  unfold scrape_pages. emits; [apply scrape_loop_events|].
  destruct (length a =? 0)%nat; emits.
Qed.

Lemma zip_and_upload_events (url : jsstring) (pages : list page) :
  emits_only (fun ev => owner ev = step4) (zip_and_upload svc url pages).
Proof.
  unfold zip_and_upload, read_clock, do_put. emits.
  destruct (nth_error (split 47 url) 2); emits.
Qed.

Lemma generate_result_events (up : upload_result) :
  emits_only (fun ev => owner ev = step5) (generate_result up).
Proof. unfold generate_result. emits. Qed.

End Effects.

(** ** Durable execution *)

Section Durable.

Import Workflow.

Lemma fresh_events_app (h new : list event) :
  fresh_events h (h ++ new) = new.
Proof. unfold fresh_events. apply drop_app_length. Qed.

Lemma committed_weaken (log log' : step_log) (name : jsstring) :
  log ⊆ log' -> committed log name -> committed log' name.
Proof. intros Hsub Hc. eapply lookup_weaken_is_Some; eassumption. Qed.

Lemma in_step_order_app (l1 l2 : list event) :
  in_step_order l1 -> in_step_order l2 ->
  (forall e1, In e1 l1 ->
     Forall (fun later => ~ In (owner later) (earlier (owner e1))) l2) ->
  in_step_order (l1 ++ l2).
Proof.
  induction l1 as [|ev l1 IH]; intros H1 H2 Hx; simpl; [exact H2|].
  destruct H1 as [Hev H1]. split.
  - apply Forall_app. split; [exact Hev|]. apply Hx. left. reflexivity.
  - apply IH; [exact H1|exact H2|]. intros e1 He1. apply Hx. right. exact He1.
Qed.

Lemma in_step_order_same (name : jsstring) (l : list event) :
  ~ In name (earlier name) ->
  Forall (fun ev => owner ev = name) l -> in_step_order l.
Proof.
  intros Hirr. induction 1 as [|ev l Hev Hl IH]; simpl; [exact I|].
  split; [|exact IH].
  rewrite Hev. eapply List.Forall_impl; [|exact Hl].
  intros later Hlater. simpl in Hlater. rewrite Hlater. exact Hirr.
Qed.

Lemma staged_ret {A} (done : list jsstring) (a : A) :
  (forall n, In n step_names -> In n done) -> staged done (wf_ret a).
Proof.
  intros Hall log h Hdone. simpl. split; [reflexivity|]. split.
  - exists []. rewrite app_nil_r. repeat split; constructor.
  - intros _ _. apply List.Forall_forall. intros n Hn.
    eapply List.Forall_forall in Hdone; [exact Hdone|]. apply Hall, Hn.
Qed.

(** A durable step followed by the rest of the workflow. *)
Lemma staged_step {A B} `{Serializable A} (done : list jsstring)
  (name : jsstring) (config : step_config) (body : io A) (k : A -> wf B) :
  emits_only (fun ev => owner ev = name) body ->
  (forall n, In n (earlier name) -> In n done) ->
  ~ In name (earlier name) ->
  (forall a, staged (name :: done) (k a)) ->
  staged done (wf_bind (step_do name config body) k).
Proof.
  intros Hbody Hearlier Hirr Hk log h Hdone.
  unfold wf_bind, step_do.
  destruct (log !! name) as [v|] eqn:Hlook; simpl.
  - (* memoized: the body is not called *)
    apply Hk. constructor; [unfold committed; rewrite Hlook; eauto|exact Hdone].
  - pose proof (emits_attempts (fun ev => owner ev = name)
                  (retries_limit config) name body eq_refl Hbody h)
      as [new1 [E1 F1]].
    destruct (attempts (retries_limit config) name body h) as [[a|x] h1];
      simpl in E1; subst h1; simpl.
    + (* the body succeeded: its result is committed *)
      set (log1 := <[name := to_value a]> log).
      assert (Hsub : log ⊆ log1) by (apply insert_subseteq; exact Hlook).
      assert (Hdone1 : Forall (committed log1) (name :: done)).
      { constructor.
        - unfold committed, log1. rewrite lookup_insert_eq. eauto.
        - eapply List.Forall_impl; [|exact Hdone].
          intros n. simpl. apply committed_weaken, Hsub. }
      destruct (Hk a log1 (h ++ new1) Hdone1) as (Hsub2 & Hnew & Hall).
      destruct Hnew as (new2 & E2 & F2 & O2).
      split; [etrans; eassumption|]. split; [|exact Hall].
      exists (new1 ++ new2). rewrite E2, app_assoc.
      split; [reflexivity|]. split.
      * apply Forall_app. split.
        -- eapply List.Forall_impl; [|exact F1]. intros ev Hev. simpl in Hev.
           rewrite Hev. split.
           ++ unfold committed. rewrite Hlook. intros [? ?]. discriminate.
           ++ apply List.Forall_forall. intros n Hn.
              apply (committed_weaken log1); [exact Hsub2|].
              apply (committed_weaken log); [exact Hsub|].
              eapply List.Forall_forall in Hdone; [exact Hdone|].
              apply Hearlier, Hn.
        -- eapply List.Forall_impl; [|exact F2]. intros ev [Hnc Hc]. split.
           ++ intros Hcl. apply Hnc. eapply committed_weaken; eassumption.
           ++ exact Hc.
      * apply in_step_order_app; [|exact O2|].
        -- eapply in_step_order_same; eassumption.
        -- intros e1 He1.
           eapply List.Forall_forall in F1; [|exact He1]. simpl in F1.
           rewrite F1. eapply List.Forall_impl; [|exact F2].
           intros later [Hnc _] Hin. apply Hnc.
           apply (committed_weaken log); [exact Hsub|].
           eapply List.Forall_forall in Hdone; [exact Hdone|].
           apply Hearlier, Hin.
    + (* the body failed for good: nothing is committed *)
      split; [reflexivity|]. split; [|intros a Ha; discriminate].
      exists new1. split; [reflexivity|]. split.
      * eapply List.Forall_impl; [|exact F1]. intros ev Hev. simpl in Hev.
        rewrite Hev. split.
        -- unfold committed. rewrite Hlook. intros [? ?]. discriminate.
        -- apply List.Forall_forall. intros n Hn.
           eapply List.Forall_forall in Hdone; [exact Hdone|].
           apply Hearlier, Hn.
      * eapply in_step_order_same; eassumption.
Qed.

Ltac step_names_goal := vm_compute; intuition discriminate.

Lemma run_staged (svc : services) (cfg : step_config) (payload : jsval) :
  staged [] (run svc cfg payload).
Proof.
  unfold run.
  apply staged_step;
    [apply get_sitemap_url_events|step_names_goal|step_names_goal|].
  intros sitemapUrl.
  apply staged_step;
    [apply fetch_and_parse_events|step_names_goal|step_names_goal|].
  intros pageUrls.
  apply staged_step;
    [apply scrape_pages_events|step_names_goal|step_names_goal|].
  intros scrapedPages.
  apply staged_step;
    [apply zip_and_upload_events|step_names_goal|step_names_goal|].
  intros uploadResult.
  apply staged_step;
    [apply generate_result_events|step_names_goal|step_names_goal|].
  intros finalResult.
  apply staged_ret. step_names_goal.
Qed.

Lemma wf_bind_ok_inv {A B} (m : wf A) (k : A -> wf B) (log : step_log)
  (h : list event) (b : B) :
  result (wf_bind m k log h) = Ok b ->
  exists a log' h',
    m log h = {| result := Ok a; log_after := log'; history := h' |}
    /\ wf_bind m k log h = k a log' h'.
Proof.
  unfold wf_bind. destruct (m log h) as [[a|e] log' h']; simpl; [|discriminate].
  intros _. exists a, log', h'. split; reflexivity.
Qed.

Lemma wf_bind_ret_inv {A} (m : wf A) (log : step_log) (h : list event)
  (a : A) :
  result (wf_bind m (fun x => wf_ret x) log h) = Ok a ->
  result (m log h) = Ok a
  /\ log_after (wf_bind m (fun x => wf_ret x) log h) = log_after (m log h).
Proof.
  unfold wf_bind, wf_ret.
  destruct (m log h) as [[a'|e] log' h']; simpl; [|discriminate].
  intros [= <-]. split; reflexivity.
Qed.

Lemma step_do_ok_committed {A} `{Serializable A} (name : jsstring)
  (config : step_config) (body : io A) (log : step_log) (h : list event)
  (a : A) :
  result (step_do name config body log h) = Ok a ->
  exists v,
    log_after (step_do name config body log h) !! name = Some v
    /\ of_value v = a.
Proof.
  unfold step_do. destruct (log !! name) as [v|] eqn:Hlook; simpl.
  - intros [= <-]. exists v. split; [exact Hlook|reflexivity].
  - destruct (attempts _ name body h) as [[a'|e] h']; simpl; [|discriminate].
    intros [= <-]. exists (to_value a').
    split; [apply lookup_insert_eq|apply of_to_value].
Qed.

(** The result of a run that completed is the one committed under the
    name of the last step. *)
Lemma run_result_committed (svc : services) (cfg : step_config)
  (payload : jsval) (log : step_log) (h : list event) (r : final_result) :
  result (run svc cfg payload log h) = Ok r ->
  exists v,
    log_after (run svc cfg payload log h) !! step5 = Some v
    /\ of_value v = r.
Proof.
  unfold run. intros Hr.
  do 4 (let E := fresh "E" in
        apply wf_bind_ok_inv in Hr as E;
        destruct E as (? & ? & ? & _ & E);
        rewrite E in Hr |- *; clear E).
  apply wf_bind_ret_inv in Hr as [Hr ->].
  apply step_do_ok_committed. exact Hr.
Qed.

(** On a log in which every step is committed, [run] goes through without
    calling anything and returns the committed result. *)
Lemma run_replay (svc : services) (cfg : step_config) (payload : jsval)
  (log : step_log) (h : list event) :
  Forall (committed log) step_names ->
  exists v,
    log !! step5 = Some v
    /\ run svc cfg payload log h
       = {| result := Ok (of_value v); log_after := log; history := h |}.
Proof.
  intros Hall. unfold step_names in Hall.
  apply Forall_cons in Hall as [[v1 H1] Hall].
  apply Forall_cons in Hall as [[v2 H2] Hall].
  apply Forall_cons in Hall as [[v3 H3] Hall].
  apply Forall_cons in Hall as [[v4 H4] Hall].
  apply Forall_cons in Hall as [[v5 H5] _].
  exists v5. split; [exact H5|].
  unfold run, wf_bind, step_do.
  rewrite H1. simpl. rewrite H2. simpl. rewrite H3. simpl.
  rewrite H4. simpl. rewrite H5. reflexivity.
Qed.

(** C1.  A first execution of the workflow, started from any persisted
    log, may fail at any step and leaves a log; a re-execution starts from
    that log, in a world that may answer differently.  In the first
    execution no event belongs to a step that the log it started from had
    committed, the events come in step order, an event of a step finds
    every earlier step committed in the log, and a run that returns has
    committed all five steps.  In the
    re-execution every committed result is kept, and no event belongs to a
    step committed by the first execution: no committed step is invoked
    again, the sitemap is not fetched again once Fetch & Parse Sitemap is
    committed, and no page is scraped again once Scrape Pages is committed.
    After a first execution that returned, the re-execution returns the
    same result without any event. *)
Theorem committed_steps_are_never_rerun
  (svc svc' : services) (cfg : step_config) (payload : jsval)
  (log0 : step_log) (h0 h1 : list event) :
  let first := run svc cfg payload log0 h0 in
  let again := run svc' cfg payload (log_after first) h1 in
  (forall ev, In ev (fresh_events h0 (history first)) ->
     ~ committed log0 (owner ev))
  /\ (forall ev, In ev (fresh_events h0 (history first)) ->
        Forall (committed (log_after first)) (earlier (owner ev)))
  /\ in_step_order (fresh_events h0 (history first))
  /\ (forall r, result first = Ok r ->
        Forall (committed (log_after first)) step_names)
  /\ log_after first ⊆ log_after again
  /\ (forall ev, In ev (fresh_events h1 (history again)) ->
        ~ committed (log_after first) (owner ev))
  /\ (forall name, committed (log_after first) name ->
        ~ In (EvInvoke name) (fresh_events h1 (history again)))
  /\ (committed (log_after first) step2 ->
        forall url, ~ In (EvFetch url) (fresh_events h1 (history again)))
  /\ (committed (log_after first) step3 ->
        forall auth url,
          ~ In (EvScrape auth url) (fresh_events h1 (history again)))
  /\ (forall r, result first = Ok r ->
        again = {| result := Ok r;
                   log_after := log_after first;
                   history := h1 |}).
Proof.
  intros first again.
  destruct (run_staged svc cfg payload log0 h0 (List.Forall_nil _))
    as (_ & (new0 & E0 & F0 & O0) & Hall0).
  destruct (run_staged svc' cfg payload (log_after first) h1 (List.Forall_nil _))
    as (Hsub & (new1 & E1 & F1 & _) & _).
  fold first in E0, F0, Hall0. fold again in Hsub, E1, F1.
  rewrite E0, E1, !fresh_events_app.
  assert (Hnot : forall ev, In ev new1 ->
                            ~ committed (log_after first) (owner ev)).
  { intros ev Hev. eapply List.Forall_forall in F1; [|exact Hev].
    apply F1. }
  repeat split.
  - intros ev Hev. eapply List.Forall_forall in F0; [|exact Hev]. apply F0.
  - intros ev Hev. eapply List.Forall_forall in F0; [|exact Hev]. apply F0.
  - exact O0.
  - exact Hall0.
  - exact Hsub.
  - exact Hnot.
  - intros name Hc Hin. exact (Hnot _ Hin Hc).
  - intros Hc url Hin. exact (Hnot _ Hin Hc).
  - intros Hc auth url Hin. exact (Hnot _ Hin Hc).
  - intros r Hr.
    destruct (run_replay svc' cfg payload (log_after first) h1 (Hall0 r Hr))
      as (v & Hv & Hrun).
    destruct (run_result_committed svc cfg payload log0 h0 r Hr)
      as (v' & Hv' & Hof).
    fold first in Hv'. rewrite Hv in Hv'. injection Hv' as <-.
    subst again. rewrite Hrun, Hof. reflexivity.
Qed.

End Durable.

(** ** A run from the start *)

Section FreshRun.

Import Workflow.

Variable svc : services.
Variable cfg : step_config.

Ltac names_differ := let E := fresh in intros E; vm_compute in E; discriminate.

Lemma attempts_first_ok {A} (budget : nat) (name : jsstring) (body : io A)
  (h h' : list event) (a : A) :
  body (h ++ [EvInvoke name]) = (Ok a, h') ->
  attempts budget name body h = (Ok a, h').
Proof. intros E. destruct budget; simpl; rewrite E; reflexivity. Qed.

Lemma attempts_no_retry {A} (name : jsstring) (body : io A) (h : list event) :
  attempts 0 name body h = body (h ++ [EvInvoke name]).
Proof. simpl. destruct (body _) as [[a|e] h']; reflexivity. Qed.



Lemma step_do_first_ok {A} `{Serializable A} (name : jsstring)
  (config : step_config) (body : io A) (log : step_log)
  (h h' : list event) (a : A) :
  log !! name = None ->
  body (h ++ [EvInvoke name]) = (Ok a, h') ->
  step_do name config body log h
  = {| result := Ok a;
       log_after := <[name := to_value a]> log;
       history := h' |}.
Proof.
  intros Hlook Hbody. unfold step_do.
  rewrite Hlook, (attempts_first_ok _ _ _ _ _ _ Hbody). reflexivity.
Qed.

Lemma step_do_no_retry_throw {A} `{Serializable A} (name : jsstring)
  (config : step_config) (body : io A) (log : step_log)
  (h h' : list event) (e : exn) :
  log !! name = None ->
  retries_limit config = 0%nat ->
  body (h ++ [EvInvoke name]) = (Throw e, h') ->
  step_do name config body log h
  = {| result := Throw e; log_after := log; history := h' |}.
Proof.
  intros Hlook Hlimit Hbody. unfold step_do.
  rewrite Hlook, Hlimit, attempts_no_retry, Hbody. reflexivity.
Qed.

Lemma get_sitemap_url_ok (payload : jsval) (url : jsstring) (h : list event) :
  opt_prop payload (lit "sitemapUrl") = Some (JStr url) ->
  url <> [] ->
  get_sitemap_url payload h = (Ok url, h).
Proof.
  intros E Hne. unfold get_sitemap_url, try_catch, catch. rewrite E.
  destruct url; [congruence|]. reflexivity.
Qed.


(** A failed sitemap fetch ends the run at once: the step has no retry. *)
Lemma r_ok_false (r : response jsstring) :
  r_status r < 200 \/ 299 < r_status r -> r_ok r = false.
Proof.
  intros H. unfold r_ok. apply andb_false_iff.
  destruct H as [H|H]; [left|right]; apply N.leb_gt; exact H.
Qed.

(** C8.  In a new run on a payload that carries a sitemap URL, when the
    fetch of the sitemap is answered with a status outside 200 to 299, the
    Fetch & Parse Sitemap step throws an error whose message carries the
    status; the step is not retried, [run] throws that error, and the
    instance ends errored with a message that begins with the step's
    name. *)
Theorem failed_sitemap_fetch_ends_the_run
  (payload : jsval) (url : jsstring) (h : list event)
  (r : response jsstring) :
  opt_prop payload (lit "sitemapUrl") = Some (JStr url) ->
  url <> [] ->
  http_get svc (h ++ [EvInvoke step1; EvInvoke step2]) url = Ok r ->
  r_status r < 200 \/ 299 < r_status r ->
  let message :=
    lit "Fetch & Parse Sitemap failed: " ++ lit "Failed to fetch sitemap: "
    ++ num_to_string (r_status r) ++ lit " " ++ r_statusText r in
  fst (fetch_and_parse svc url (h ++ [EvInvoke step1; EvInvoke step2]))
  = Throw (Error message)
  /\ result (run svc cfg payload ∅ h) = Throw (Error message)
  /\ status_after (run svc cfg payload ∅ h) Complete = Errored message
  /\ history (run svc cfg payload ∅ h)
     = h ++ [EvInvoke step1; EvInvoke step2; EvFetch url].
Proof.
  intros Hurl Hne Hget Hst message.
  assert (Hbody : fetch_and_parse svc url (h ++ [EvInvoke step1; EvInvoke step2])
                  = (Throw (Error message),
                     h ++ [EvInvoke step1; EvInvoke step2; EvFetch url])).
  { unfold fetch_and_parse, try_catch, catch, bind, do_fetch, throw.
    rewrite Hget, (r_ok_false r Hst). simpl.
    rewrite <- app_assoc. reflexivity. }
  assert (Hrun : run svc cfg payload ∅ h
                 = {| result := Throw (Error message);
                      log_after := <[step1 := VStr url]> ∅;
                      history := h ++ [EvInvoke step1; EvInvoke step2;
                                       EvFetch url] |}).
  { unfold run, wf_bind.
    rewrite (step_do_first_ok step1 cfg _ ∅ h _ url (lookup_empty _)
               (get_sitemap_url_ok payload url _ Hurl Hne)).
    simpl.
    rewrite (step_do_no_retry_throw step2 sitemap_config _ _
               (h ++ [EvInvoke step1])
               (h ++ [EvInvoke step1; EvInvoke step2; EvFetch url])
               (Error message)).
    - reflexivity.
    - rewrite lookup_insert_ne by names_differ. apply lookup_empty.
    - reflexivity.
    - rewrite <- app_assoc. exact Hbody. }
  rewrite Hbody, Hrun. repeat split.
Qed.

(** *** The archive name and the download URL *)





Lemma zip_and_upload_inv (url : jsstring) (pages : list page)
  (h h' : list event) (up : upload_result) :
  zip_and_upload svc url pages h = (Ok up, h') ->
  exists segment data hist,
    nth_error (split 47 url) 2 = Some segment
    /\ zipSync svc (zip_entries svc pages) = Ok data
    /\ up = {| zipName := replace_chars is_dot 95 segment ++ lit "_"
                          ++ replace_chars is_colon_or_dot 45 (now_iso svc hist)
                          ++ lit ".zip";
               files := map fileName pages;
               size := length data |}
    /\ In (EvPut (zipName up) data) h'.
Proof.
  unfold zip_and_upload, try_catch, catch, bind, lift, read_clock, do_put,
    throw, ret.
  destruct (zipSync svc (zip_entries svc pages)) as [data|e]; [|discriminate].
  destruct (nth_error (split 47 url) 2) as [segment|]; [|discriminate].
  destruct (bucket_put svc _ _ data) as [[]|e]; [|discriminate].
  intros [= <- <-]. exists segment, data, h.
  repeat split. simpl. apply in_or_app. right. left. reflexivity.
Qed.





End FreshRun.

(** ** Concrete runs *)

(** The sitemap answers 500: the run ends errored at the second step. *)
Lemma failed_sitemap_fetch_witness :
  Workflow.result
    (Workflow.run
       (Sample.world (Sample.error_response 500 (lit "Internal Server Error"))
                     Sample.markdown_of)
       Sample.two_retries Sample.payload ∅ [])
  = Throw (Error (lit "Fetch & Parse Sitemap failed: Failed to fetch sitemap: 500 Internal Server Error"))
  /\ Workflow.status_after
       (Workflow.run
          (Sample.world (Sample.error_response 500 (lit "Internal Server Error"))
                        Sample.markdown_of)
          Sample.two_retries Sample.payload ∅ [])
       Workflow.Complete
     = Workflow.Errored
         (lit "Fetch & Parse Sitemap failed: Failed to fetch sitemap: 500 Internal Server Error").
Proof.
  destruct (failed_sitemap_fetch_ends_the_run
              (Sample.world
                 (Sample.error_response 500 (lit "Internal Server Error"))
                 Sample.markdown_of)
              Sample.two_retries Sample.payload Sample.sitemap_url []
              (Sample.error_response 500 (lit "Internal Server Error")))
    as (_ & Hresult & Hstatus & _).
  - reflexivity.
  - discriminate.
  - reflexivity.
  - right. reflexivity.
  - split; [exact Hresult|exact Hstatus].
Defined.




(** The interrupted run committed the sitemap step; the resumed run does
    not fetch the sitemap again and does not invoke the first two steps. *)
Lemma resumed_run_witness :
  committed (Workflow.log_after Sample.interrupted_run) Workflow.step2
  /\ (forall url,
        ~ In (EvFetch url)
             (fresh_events (Workflow.history Sample.interrupted_run)
                           (Workflow.history Sample.resumed_run)))
  /\ ~ In (EvInvoke Workflow.step1)
          (fresh_events (Workflow.history Sample.interrupted_run)
                        (Workflow.history Sample.resumed_run)).
Proof.
  pose proof (committed_steps_are_never_rerun
                (Sample.world (Sample.ok_response Sample.two_pages)
                              Sample.unavailable)
                (Sample.world (Sample.ok_response Sample.two_pages)
                              Sample.markdown_of)
                Sample.two_retries Sample.payload ∅ []
                (Workflow.history Sample.interrupted_run)) as H.
  cbv zeta in H.
  destruct H as (_ & _ & _ & _ & _ & _ & Hinvoke & Hfetch & _).
  assert (H2 : committed (Workflow.log_after Sample.interrupted_run)
                         Workflow.step2)
    by (vm_compute; eexists; reflexivity).
  assert (H1 : committed (Workflow.log_after Sample.interrupted_run)
                         Workflow.step1)
    by (vm_compute; eexists; reflexivity).
  split; [exact H2|]. split.
  - exact (Hfetch H2).
  - exact (Hinvoke Workflow.step1 H1).
Defined.

(** * Further properties of the code *)

(** ** Cutting a URL at the slashes *)

Lemma split_not_nil (sep : N) (s : jsstring) : split sep s <> [].
Proof.
  induction s as [|c s IH]; simpl; [discriminate|].
  destruct (c =? sep); [discriminate|].
  destruct (split sep s); [congruence|discriminate].
Qed.

Lemma split_snoc_sep (sep : N) (s : jsstring) :
  split sep (s ++ [sep]) = split sep s ++ [[]].
Proof.
  induction s as [|c s IH]; simpl.
  - rewrite N.eqb_refl. reflexivity.
  - rewrite IH. destruct (c =? sep); [reflexivity|].
    pose proof (split_not_nil sep s) as Hne.
    destruct (split sep s); [congruence|reflexivity].
Qed.

Lemma join_cons (sep : N) (p : jsstring) (rest : list jsstring) :
  rest <> [] -> join sep (p :: rest) = p ++ sep :: join sep rest.
Proof. destruct rest; [congruence|reflexivity]. Qed.

Lemma split_length (sep : N) (s : jsstring) :
  length (split sep s) = S (length (List.filter (N.eqb sep) s)).
Proof.
  induction s as [|c s IH]; [reflexivity|].
  cbn [split List.filter]. rewrite (N.eqb_sym sep c).
  destruct (c =? sep); cbn [length]; [rewrite IH; reflexivity|].
  pose proof (split_not_nil sep s) as Hne.
  destruct (split sep s); [congruence|exact IH].
Qed.

Lemma split_pieces_no_sep (sep : N) (s : jsstring) :
  Forall (fun piece => ~ In sep piece) (split sep s).
Proof.
  induction s as [|c s IH]; simpl; [repeat constructor; tauto|].
  destruct (N.eqb_spec c sep) as [->|Hc].
  - constructor; [tauto|exact IH].
  - destruct (split sep s) as [|p ps]; [repeat constructor; simpl; tauto|].
    apply Forall_cons in IH as [Hp Hps].
    constructor; [simpl; intros [E|E]; [congruence|tauto]|exact Hps].
Qed.

(** X1.  [url.split('/')] loses nothing: joining the pieces with slashes
    gives the string back; no piece holds a slash; and there is one piece
    more than there are slashes, so [split('/')[2]] exists exactly when
    the string has two slashes or more. *)
Theorem split_round_trip (s : jsstring) :
  join 47 (split 47 s) = s
  /\ Forall (fun piece => ~ In 47 piece) (split 47 s)
  /\ length (split 47 s) = S (length (List.filter (N.eqb 47) s))
  /\ (is_Some (nth_error (split 47 s) 2)
      <-> (2 <= length (List.filter (N.eqb 47) s))%nat).
Proof.
  pose proof (split_length 47 s) as Hlen.
  split; [|split; [|split; [exact Hlen|]]].
  - clear Hlen. induction s as [|c s IH]; [reflexivity|].
    pose proof (split_not_nil 47 s) as Hne. cbn [split].
    destruct (N.eqb_spec c 47) as [->|Hc].
    + rewrite join_cons, IH by exact Hne. reflexivity.
    + destruct (split 47 s) as [|p ps]; [congruence|].
      destruct ps as [|q ps].
      * simpl in IH |- *. rewrite IH. reflexivity.
      * rewrite join_cons in IH |- * by discriminate.
        rewrite <- IH. reflexivity.
  - apply split_pieces_no_sep.
  - split.
    + intros [x Hx].
      assert (Hn : nth_error (split 47 s) 2 <> None) by congruence.
      apply List.nth_error_Some in Hn. lia.
    + intros H. destruct (nth_error (split 47 s) 2) eqn:E; [eauto|].
      apply List.nth_error_None in E. lia.
Qed.

(** ** File names *)

Lemma pop_filter_In (url s : jsstring) :
  pop (List.filter truthy_str (split 47 url)) = Some s ->
  s <> [] /\ ~ In 47 s.
Proof.
  unfold pop. intros Hl. apply last_Some_elem_of, list_elem_of_In in Hl.
  apply List.filter_In in Hl as [Hin Ht]. split.
  - intros ->. discriminate.
  - pose proof (split_pieces_no_sep 47 url) as Hno.
    eapply List.Forall_forall in Hno; [exact Hno|exact Hin].
Qed.

(** X2.  Whatever the URL, the file name is a stem followed by [.md]; the
    stem is not empty and holds no slash, so every file lies at the top of
    the archive. *)
Theorem file_name_shape (url : jsstring) :
  exists stem,
    Workflow.file_name_of url = stem ++ lit ".md"
    /\ stem <> []
    /\ ~ In 47 stem.
Proof.
  unfold Workflow.file_name_of.
  destruct (pop _) as [s|] eqn:E.
  - apply pop_filter_In in E as [Hne Hno].
    destruct s as [|c s]; [congruence|].
    exists (c :: s). simpl. auto.
  - exists (lit "index"). split; [reflexivity|].
    split; [discriminate|]. vm_compute. intuition discriminate.
Qed.

(** X3.  Slashes at the end of a URL do not count: the name comes from
    the last piece that is not empty. *)
Theorem file_name_ignores_trailing_slashes
  (base seg : jsstring) (n : nat) :
  seg <> [] -> ~ In 47 seg ->
  Workflow.file_name_of (base ++ 47 :: seg ++ repeat 47 n)
  = seg ++ lit ".md".
Proof.
  intros Hne Hno. induction n as [|n IH].
  - simpl. rewrite app_nil_r. apply file_name_last_segment; assumption.
  - rewrite <- IH. simpl repeat. rewrite repeat_cons.
    unfold Workflow.file_name_of.
    replace (base ++ 47 :: seg ++ repeat 47 n ++ [47])
      with ((base ++ 47 :: seg ++ repeat 47 n) ++ [47])
      by (rewrite <- app_assoc; simpl; rewrite <- app_assoc; reflexivity).
    rewrite split_snoc_sep, List.filter_app. simpl.
    rewrite app_nil_r. reflexivity.
Qed.

Lemma file_name_trailing_witness :
  Workflow.file_name_of (lit "https://example.com/docs" ++ 47 :: lit "intro"
                         ++ repeat 47 2)
  = lit "intro" ++ lit ".md".
Proof.
  apply (file_name_ignores_trailing_slashes
           (lit "https://example.com/docs") (lit "intro") 2).
  - discriminate.
  - vm_compute. intuition discriminate.
Defined.

(** ** What the two patterns capture *)

Lemma matchAll_from_In (m : matcher) (skip : nat) (s cap : jsstring) :
  In cap (matchAll_from m skip s) ->
  exists pre s0 rest, s = pre ++ s0 /\ m s0 = Some (cap, rest).
Proof.
  revert skip. induction s as [|c s IH]; intros skip Hin; [destruct Hin|].
  cbn [matchAll_from] in Hin.
  assert (Htail : forall k, In cap (matchAll_from m k s) ->
            exists pre s0 rest, c :: s = pre ++ s0 /\ m s0 = Some (cap, rest)).
  { intros k Hk. destruct (IH k Hk) as (pre & s0 & rest & -> & Hm).
    exists (c :: pre), s0, rest. split; [reflexivity|exact Hm]. }
  destruct skip as [|k]; [|eapply Htail, Hin].
  destruct (m (c :: s)) as [[cap' rest']|] eqn:Hm; [|eapply Htail, Hin].
  destruct Hin as [<-|Hin]; [|eapply Htail, Hin].
  exists [], (c :: s), rest'. split; [reflexivity|exact Hm].
Qed.

Lemma matchAll_from_skip (m : matcher) (skip : nat) (s : jsstring) :
  matchAll_from m skip s = matchAll_from m 0 (skipn skip s).
Proof.
  revert skip. induction s as [|c s IH]; intros [|k]; try reflexivity.
  cbn [matchAll_from skipn]. apply IH.
Qed.

Lemma match_loc_inv (s cap rest : jsstring) :
  match_loc s = Some (cap, rest) ->
  s = lit "<loc>" ++ cap ++ lit "</loc>" ++ rest
  /\ Forall (fun c => is_line_terminator c = false) cap.
Proof.
  unfold match_loc. destruct (starts_with (lit "<loc>") s) eqn:E; [|discriminate].
  intros Hl. apply starts_with_inv in E. apply lazy_until_inv in Hl as [Hs Hf].
  split; [|exact Hf]. rewrite E. f_equal. exact Hs.
Qed.

Lemma skip_spaces_inv (s : jsstring) :
  exists sp, s = sp ++ skip_spaces s /\ Forall (fun c => is_space c = true) sp.
Proof.
  induction s as [|c s (sp & E & F)]; simpl.
  - exists []. split; [reflexivity|constructor].
  - destruct (is_space c) eqn:Hc.
    + exists (c :: sp). split; [simpl; f_equal; exact E|constructor; assumption].
    + exists []. split; [reflexivity|constructor].
Qed.

Lemma lazy_until_no_char (q : N) (s cap rest : jsstring) :
  lazy_until [q] s = Some (cap, rest) -> ~ In q cap.
Proof.
  revert cap rest. induction s as [|c s IH]; intros cap rest H.
  - simpl in H. discriminate.
  - cbn [lazy_until starts_with] in H. rewrite andb_true_r in H.
    destruct (N.eqb_spec q c) as [->|Hqc].
    + inversion H; subst. simpl. tauto.
    + destruct (is_line_terminator c); [discriminate|].
      destruct (lazy_until [q] s) as [[cap' rest']|] eqn:Hl; [|discriminate].
      inversion H; subst. simpl. intros [E|E]; [congruence|].
      eapply IH; [reflexivity|exact E].
Qed.

Lemma match_anchor_inv (s cap rest : jsstring) :
  match_anchor s = Some (cap, rest) ->
  exists sp,
    sp <> []
    /\ Forall (fun c => is_space c = true) sp
    /\ s = lit "<a" ++ sp ++ lit "href=" ++ dquote ++ cap ++ dquote ++ rest
    /\ Forall (fun c => is_line_terminator c = false) cap
    /\ ~ In 34 cap.
Proof.
  unfold match_anchor.
  destruct (starts_with (lit "<a") s) eqn:E; [|discriminate].
  apply starts_with_inv in E. remember (skipn (length (lit "<a")) s) as t.
  change (skipn 2 s) with (skipn (length (lit "<a")) s). rewrite <- Heqt.
  unfold spaces_plus. destruct t as [|c t]; [discriminate|].
  destruct (is_space c) eqn:Hc; [|discriminate].
  destruct (starts_with (lit "href=" ++ dquote) (skip_spaces t)) eqn:Eh;
    [|discriminate].
  intros Hl. apply starts_with_inv in Eh.
  pose proof (lazy_until_no_char _ _ _ _ Hl) as Hq.
  apply lazy_until_inv in Hl as [Hs Hf].
  destruct (skip_spaces_inv t) as (sp & Et & Fsp).
  exists (c :: sp). split; [discriminate|]. split; [constructor; assumption|].
  split; [|split; [exact Hf|exact Hq]].
  rewrite E. f_equal. rewrite Et, Eh.
  change (skipn 6 (skip_spaces t))
    with (skipn (length (lit "href=" ++ dquote)) (skip_spaces t)) in Hs.
  rewrite Hs. simpl. rewrite <- ?app_assoc. reflexivity.
Qed.

(** X4.  Every link the sitemap step returns is text of the document: it
    stands between [<loc>] and [</loc>], or between the quotes of an
    [<a href="..."] whose [a] and [href] are separated by white space only;
    it holds no line terminator, so an entry that runs over several lines
    is never returned; and a link taken from an anchor holds no quote. *)
Theorem extracted_links_stand_in_the_document
  (xml : jsstring) (urls : list jsstring) (u : jsstring) :
  Workflow.parse_urls xml = Ok urls ->
  In u urls ->
  Forall (fun c => is_line_terminator c = false) u
  /\ ((exists pre post, xml = pre ++ lit "<loc>" ++ u ++ lit "</loc>" ++ post)
      \/ (exists pre sp post,
            sp <> []
            /\ Forall (fun c => is_space c = true) sp
            /\ ~ In 34 u
            /\ xml = pre ++ lit "<a" ++ sp ++ lit "href=" ++ dquote
                     ++ u ++ dquote ++ post)).
Proof.
  unfold Workflow.parse_urls. fold (link_captures xml).
  destruct (length _ =? 0)%nat; [discriminate|].
  intros [= <-] Hin. unfold slice0 in Hin.
  assert (Hcap : In u (link_captures xml)).
  { apply first_seen_In. rewrite <- set_of_first_seen.
    rewrite <- (firstn_skipn 10 (set_of _)). apply in_or_app. left. exact Hin. }
  unfold link_captures, matchAll_captures in Hcap.
  apply in_app_or in Hcap as [Hloc|Ha].
  - apply matchAll_from_In in Hloc as (pre & s0 & rest & -> & Hm).
    apply match_loc_inv in Hm as [-> Hf].
    split; [exact Hf|]. left. exists pre, rest. reflexivity.
  - apply matchAll_from_In in Ha as (pre & s0 & rest & -> & Hm).
    apply match_anchor_inv in Hm as (sp & Hne & Fsp & -> & Hf & Hq).
    split; [exact Hf|]. right. exists pre, sp, rest. auto.
Qed.

Lemma extracted_links_witness :
  Forall (fun c => is_line_terminator c = false) Sample.page_a
  /\ ((exists pre post,
         Sample.two_pages
         = pre ++ lit "<loc>" ++ Sample.page_a ++ lit "</loc>" ++ post)
      \/ (exists pre sp post,
            sp <> []
            /\ Forall (fun c => is_space c = true) sp
            /\ ~ In 34 Sample.page_a
            /\ Sample.two_pages
               = pre ++ lit "<a" ++ sp ++ lit "href=" ++ dquote
                 ++ Sample.page_a ++ dquote ++ post)).
Proof.
  apply (extracted_links_stand_in_the_document Sample.two_pages
           [Sample.page_a; Sample.page_b] Sample.page_a).
  - vm_compute. reflexivity.
  - left. reflexivity.
Defined.

Lemma lazy_until_here (close s : jsstring) :
  starts_with close s = true ->
  lazy_until close s = Some ([], skipn (length close) s).
Proof. intros H. destruct s; simpl; rewrite H; reflexivity. Qed.

Lemma lazy_until_complete (close u rest : jsstring) (q : N) :
  hd_error close = Some q ->
  ~ In q u ->
  Forall (fun c => is_line_terminator c = false) u ->
  lazy_until close (u ++ close ++ rest) = Some (u, rest).
Proof.
  intros Hq Hno Hf. induction u as [|c u IH].
  - simpl app. rewrite lazy_until_here by apply starts_with_app.
    rewrite drop_app_length. reflexivity.
  - destruct close as [|q' close]; [discriminate|]. injection Hq as ->.
    apply Forall_cons in Hf as [Hc Hf].
    simpl app. cbn [lazy_until starts_with].
    destruct (N.eqb_spec q c) as [->|_]; [simpl in Hno; tauto|].
    simpl andb. cbv iota. rewrite Hc.
    simpl app in IH. rewrite IH; [reflexivity| |exact Hf].
    simpl in Hno. tauto.
Qed.

(** X5.  A document that begins with a [<loc>] entry whose text holds no
    [<] and no line terminator yields that text first, followed by what
    the rest of the document yields: well-formed entries are all found, in
    the order of the document. *)
Theorem loc_entry_is_captured (u rest : jsstring) :
  ~ In 60 u ->
  Forall (fun c => is_line_terminator c = false) u ->
  matchAll_captures match_loc (lit "<loc>" ++ u ++ lit "</loc>" ++ rest)
  = u :: matchAll_captures match_loc rest.
Proof.
  intros Hno Hf. unfold matchAll_captures.
  assert (Hm : match_loc (lit "<loc>" ++ u ++ lit "</loc>" ++ rest)
               = Some (u, rest)).
  { unfold match_loc. rewrite starts_with_app.
    change 5%nat with (length (lit "<loc>")). rewrite drop_app_length.
    apply (lazy_until_complete _ _ _ 60); [reflexivity|exact Hno|exact Hf]. }
  change (lit "<loc>" ++ u ++ lit "</loc>" ++ rest)
    with (60 :: (lit "loc>" ++ u ++ lit "</loc>" ++ rest)) in Hm |- *.
  cbn [matchAll_from]. rewrite Hm. f_equal.
  rewrite matchAll_from_skip. f_equal.
  replace (lit "loc>" ++ u ++ lit "</loc>" ++ rest)
    with ((lit "loc>" ++ u ++ lit "</loc>") ++ rest)
    by (rewrite <- !app_assoc; reflexivity).
  apply drop_app_length'. simpl. rewrite !length_app. simpl. lia.
Qed.

Lemma loc_entry_witness :
  matchAll_captures match_loc
    (lit "<loc>" ++ Sample.page_a ++ lit "</loc>" ++ lit "<x/>")
  = Sample.page_a :: matchAll_captures match_loc (lit "<x/>").
Proof.
  apply (loc_entry_is_captured Sample.page_a (lit "<x/>")).
  - vm_compute. intuition discriminate.
  - vm_compute. repeat constructor.
Defined.

(** ** The step bodies, whatever the world *)

Section BodiesAnyWorld.

Import Workflow.

Variable svc : services.

Lemma count_app (kind : event -> bool) (a b : list event) :
  count kind (a ++ b) = (count kind a + count kind b)%nat.
Proof. unfold count. rewrite List.filter_app, length_app. reflexivity. Qed.

Lemma fetch_and_parse_post (url : jsstring) (h : list event) :
  snd (fetch_and_parse svc url h) = h ++ [EvFetch url]
  /\ forall urls,
       fst (fetch_and_parse svc url h) = Ok urls ->
       urls <> [] /\ List.NoDup urls /\ (length urls <= 10)%nat.
Proof.
  unfold fetch_and_parse, try_catch, catch, bind, do_fetch, lift, throw.
  destruct (http_get svc h url) as [r|e]; simpl; [|split; [reflexivity|discriminate]].
  destruct (r_ok r); simpl; [|split; [reflexivity|discriminate]].
  destruct (r_body r) as [xml|e]; simpl; [|split; [reflexivity|discriminate]].
  unfold parse_urls. fold (link_captures xml). rewrite set_of_first_seen.
  destruct (first_seen (link_captures xml)) as [|x l] eqn:E;
    cbn [length Nat.eqb fst snd];
    [split; [reflexivity|discriminate]|].
  split; [reflexivity|]. intros urls Hu. unfold slice0 in Hu.
  assert (Eu : urls = firstn 10 (x :: l)) by congruence.
  rewrite Eu. clear Hu Eu.
  split; [discriminate|]. split; [|rewrite length_take; lia].
  pose proof (first_seen_NoDup (link_captures xml)) as Hnd. rewrite E in Hnd.
  rewrite <- (firstn_skipn 10 (x :: l)) in Hnd.
  apply List.NoDup_app_remove_r in Hnd. exact Hnd.
Qed.

(** X6.  The sitemap step makes one request and nothing else, whatever
    comes of it; and whenever it returns, the list of links is not empty,
    has no duplicates and has at most 10 entries. *)
Theorem sitemap_step_postcondition (url : jsstring) (h : list event) :
  snd (fetch_and_parse svc url h) = h ++ [EvFetch url]
  /\ forall urls,
       fst (fetch_and_parse svc url h) = Ok urls ->
       urls <> [] /\ List.NoDup urls /\ (length urls <= 10)%nat.
Proof. apply fetch_and_parse_post. Qed.




(** X8.  When the extraction service answers every URL, the step's
    events are, URL after URL in the order of the list: the request, with
    the token as bearer, and then the pause if the answer was successful,
    the warning naming the URL if not.  This holds also when every page
    fails and the step throws. *)
Theorem scrape_step_is_serial (answer : jsstring -> response jsstring)
  (urls : list jsstring) (h : list event) :
  (forall hist u, In u urls -> scrape_post svc hist u = Ok (answer u)) ->
  (forall u, In u urls -> r_ok (answer u) = true ->
             exists markdown, r_body (answer u) = Ok markdown) ->
  snd (scrape_pages svc urls h)
  = h ++ flat_map
           (turn_events (lit "Bearer " ++ SCRAPING_API_TOKEN svc) answer) urls.
Proof.
  intros Ha Hb.
  rewrite <- (scrape_loop_trace svc answer urls [] h Ha Hb).
  unfold scrape_pages, try_catch, catch, bind, throw, ret.
  destruct (scrape_loop svc urls [] h) as [[out|e] h1]; [|reflexivity].
  destruct (length out =? 0)%nat; reflexivity.
Qed.

Lemma scrape_loop_rejected (answer : jsstring -> response jsstring)
  (pre post : list jsstring) (u : jsstring) (e : exn) (out : list page)
  (h : list event) :
  (forall hist v, In v pre -> scrape_post svc hist v = Ok (answer v)) ->
  (forall v, In v pre -> r_ok (answer v) = true ->
             exists markdown, r_body (answer v) = Ok markdown) ->
  (forall hist, scrape_post svc hist u = Throw e) ->
  scrape_loop svc (pre ++ u :: post) out h
  = (Throw e,
     h ++ flat_map
            (turn_events (lit "Bearer " ++ SCRAPING_API_TOKEN svc) answer) pre
       ++ [EvScrape (lit "Bearer " ++ SCRAPING_API_TOKEN svc) u]).
Proof.
  intros Ha Hb Hu. revert out h.
  induction pre as [|v pre IH]; intros out h.
  - simpl. unfold bind, do_scrape. rewrite Hu. reflexivity.
  - assert (Ha' : forall hist w, In w pre ->
                                 scrape_post svc hist w = Ok (answer w))
      by (intros hist w Hw; apply Ha; right; exact Hw).
    assert (Hb' : forall w, In w pre -> r_ok (answer w) = true ->
                            exists markdown, r_body (answer w) = Ok markdown)
      by (intros w Hw; apply Hb; right; exact Hw).
    simpl app. cbn [scrape_loop flat_map].
    unfold bind, do_scrape, emit, lift, turn_events.
    rewrite (Ha h v) by (left; reflexivity).
    destruct (r_ok (answer v)) eqn:Hok; simpl.
    + destruct (Hb v (or_introl eq_refl) Hok) as [md ->].
      rewrite IH by assumption. rewrite <- !app_assoc. reflexivity.
    + rewrite IH by assumption. rewrite <- !app_assoc. reflexivity.
Qed.

(** X9.  A request that is rejected (the network fails) is not a skip:
    the step throws the wrapped error at once, the pages scraped before
    are lost and the URLs after it are never requested. *)
Theorem rejected_request_aborts_the_step
  (answer : jsstring -> response jsstring)
  (pre post : list jsstring) (u : jsstring) (e : exn) (h : list event) :
  (forall hist v, In v pre -> scrape_post svc hist v = Ok (answer v)) ->
  (forall v, In v pre -> r_ok (answer v) = true ->
             exists markdown, r_body (answer v) = Ok markdown) ->
  (forall hist, scrape_post svc hist u = Throw e) ->
  scrape_pages svc (pre ++ u :: post) h
  = (Throw (Error (lit "Scrape Pages failed: " ++ exn_message e)),
     h ++ flat_map
            (turn_events (lit "Bearer " ++ SCRAPING_API_TOKEN svc) answer) pre
       ++ [EvScrape (lit "Bearer " ++ SCRAPING_API_TOKEN svc) u]).
Proof.
  intros Ha Hb Hu.
  unfold scrape_pages, try_catch, catch, bind, throw.
  rewrite (scrape_loop_rejected answer pre post u e [] h Ha Hb Hu).
  reflexivity.
Qed.




End BodiesAnyWorld.

(** ** Errors of a run *)

Section RunErrors.

Import Workflow.

Variable svc : services.
Variable cfg : step_config.

Lemma try_catch_names (prefix : jsstring) {A} (m : io A) (h : list event)
  (e : exn) :
  In prefix step_prefixes ->
  fst (try_catch prefix m h) = Throw e ->
  names_its_step e.
Proof.
  intros Hin. unfold try_catch, catch, throw.
  destruct (m h) as [[a|x] h']; simpl; [discriminate|].
  intros [= <-]. split; [reflexivity|].
  exists prefix, (exn_message x). split; [exact Hin|reflexivity].
Qed.

Lemma attempts_throw_inv {A} (budget : nat) (name : jsstring) (body : io A)
  (h : list event) (e : exn) :
  fst (attempts budget name body h) = Throw e ->
  exists h0, fst (body h0) = Throw e.
Proof.
  revert h. induction budget as [|n IH]; intros h; simpl;
    destruct (body (h ++ [EvInvoke name])) as [[a|x] h1] eqn:E; simpl.
  - discriminate.
  - intros [= <-]. exists (h ++ [EvInvoke name]). rewrite E. reflexivity.
  - discriminate.
  - apply IH.
Qed.

Lemma step_do_throw_inv {A} `{Serializable A} (name : jsstring)
  (config : step_config) (body : io A) (log : step_log) (h : list event)
  (e : exn) :
  result (step_do name config body log h) = Throw e ->
  exists h0, fst (body h0) = Throw e.
Proof.
  unfold step_do. destruct (log !! name); simpl; [discriminate|].
  destruct (attempts _ name body h) as [[a|x] h'] eqn:E; simpl; [discriminate|].
  intros [= <-]. apply (attempts_throw_inv (retries_limit config) name body h).
  rewrite E. reflexivity.
Qed.

Lemma wf_bind_throw_inv {A B} (m : wf A) (k : A -> wf B) (log : step_log)
  (h : list event) (e : exn) :
  result (wf_bind m k log h) = Throw e ->
  result (m log h) = Throw e
  \/ exists a log' h', result (k a log' h') = Throw e.
Proof.
  unfold wf_bind. destruct (m log h) as [[a|x] log' h']; simpl.
  - intros Hk. right. eauto.
  - intros [= <-]. left. reflexivity.
Qed.

Ltac prefix_goal := vm_compute; tauto.

(** X11.  Whatever the world, the payload and the log a run starts from,
    an error thrown by [run] is an [Error] whose message begins with the
    prefix of one of the five steps: a failed instance always names the
    step that failed. *)
Theorem run_errors_name_their_step
  (payload : jsval) (log : step_log) (h : list event) (e : exn) :
  result (run svc cfg payload log h) = Throw e ->
  names_its_step e.
Proof.
  unfold run. intros Hr.
  apply wf_bind_throw_inv in Hr as [Hr|(a1 & l1 & g1 & Hr)].
  { apply step_do_throw_inv in Hr as [h0 Hr].
    eapply try_catch_names; [|exact Hr]. prefix_goal. }
  apply wf_bind_throw_inv in Hr as [Hr|(a2 & l2 & g2 & Hr)].
  { apply step_do_throw_inv in Hr as [h0 Hr].
    eapply try_catch_names; [|exact Hr]. prefix_goal. }
  apply wf_bind_throw_inv in Hr as [Hr|(a3 & l3 & g3 & Hr)].
  { apply step_do_throw_inv in Hr as [h0 Hr].
    eapply try_catch_names; [|exact Hr]. prefix_goal. }
  apply wf_bind_throw_inv in Hr as [Hr|(a4 & l4 & g4 & Hr)].
  { apply step_do_throw_inv in Hr as [h0 Hr].
    eapply try_catch_names; [|exact Hr]. prefix_goal. }
  apply wf_bind_throw_inv in Hr as [Hr|(a5 & l5 & g5 & Hr)].
  { apply step_do_throw_inv in Hr as [h0 Hr].
    eapply try_catch_names; [|exact Hr]. prefix_goal. }
  discriminate.
Qed.

End RunErrors.

(** ** The handler and the first step *)

Section Validation.

Import Workflow Handler.

Variable wfb : binding.

Lemma create_instance_accepted (req : request) (rt : runtime) (j : json) :
  body req = Ok j ->
  negb (truthy (opt_prop (Some j) (lit "sitemapUrl")))
  || negb (typeof_string (opt_prop (Some j) (lit "sitemapUrl"))) = false ->
  exists resp rt',
    catch (create_instance wfb req)
      (fun err =>
         ret (json_response 500
                (error_json (lit "Failed to process request: "
                             ++ exn_to_string err)))) rt
    = (Ok resp, rt')
    /\ (status resp = 200 \/ status resp = 500).
Proof.
  intros Hb Hg. unfold catch, create_instance, bind, lift, ret.
  rewrite Hb, Hg. unfold wf_create, wf_status.
  destruct (fault wfb (calls rt)); simpl; [eauto 6|].
  destruct (fault wfb (calls rt ++ [CallCreate j])); simpl; [eauto 6|].
  rewrite lookup_insert_eq. simpl. eauto 6.
Qed.

(** X12.  The handler and the first step of the workflow check the
    payload alike.  For a creation request with a JSON body: either the
    body carries a non-empty string [sitemapUrl], the handler does not
    answer 400 and the first step returns that string; or it does not, the
    handler answers 400 and the first step would throw.  So the first step
    never fails for an instance the handler created. *)
Theorem handler_and_first_step_agree
  (req : request) (rt : runtime) (j : json) (h : list event) :
  method req = lit "POST" ->
  body req = Ok j ->
  (exists url resp,
      opt_prop (Some j) (lit "sitemapUrl") = Some (JStr url)
      /\ url <> []
      /\ get_sitemap_url (Some j) h = (Ok url, h)
      /\ fst (fetch wfb req rt) = Ok resp
      /\ status resp <> 400)
  \/ (exists resp,
        (forall url, url <> [] ->
           opt_prop (Some j) (lit "sitemapUrl") <> Some (JStr url))
        /\ get_sitemap_url (Some j) h
           = (Throw (Error (lit "Get Sitemap URL failed: "
                            ++ missing_url_message)), h)
        /\ fetch wfb req rt = (Ok resp, rt)
        /\ status resp = 400).
Proof.
  intros Hm Hb.
  assert (Hroute : fetch wfb req rt
                   = catch (create_instance wfb req)
                       (fun err =>
                          ret (json_response 500
                                 (error_json (lit "Failed to process request: "
                                              ++ exn_to_string err)))) rt).
  { unfold fetch, catch.
    rewrite not_get_not_status by (rewrite Hm; vm_compute; discriminate).
    rewrite Hm. reflexivity. }
  destruct (negb (truthy (opt_prop (Some j) (lit "sitemapUrl")))
            || negb (typeof_string (opt_prop (Some j) (lit "sitemapUrl"))))
    eqn:Hg.
  - right. eexists. split; [|split; [|split]].
    + intros url Hne E. rewrite E in Hg. destruct url; [congruence|discriminate].
    + unfold get_sitemap_url, try_catch, catch. rewrite Hg. reflexivity.
    + rewrite Hroute. unfold catch, create_instance, bind, lift.
      rewrite Hb, Hg. reflexivity.
    + reflexivity.
  - left.
    destruct (create_instance_accepted req rt j Hb Hg)
      as (resp & rt' & Hc & Hst).
    apply orb_false_iff in Hg as [Ht Hs].
    apply negb_false_iff in Ht, Hs.
    destruct (opt_prop (Some j) (lit "sitemapUrl")) as [[| | |url| |]|] eqn:E;
      try discriminate.
    exists url, resp. split; [reflexivity|].
    assert (Hne : url <> []) by (intros ->; discriminate).
    split; [exact Hne|]. split; [|split].
    + unfold get_sitemap_url, try_catch, catch. rewrite E.
      destruct url; [congruence|]. reflexivity.
    + rewrite Hroute, Hc. reflexivity.
    + destruct Hst as [-> | ->]; discriminate.
Qed.

End Validation.

(** ** The archive *)

Section Archive.

Import Workflow.

Variable svc : services.

Lemma obj_set_keys {V} (o : list (jsstring * V)) (k : jsstring) (v : V) :
  map fst (obj_set o k v) = set_add (map fst o) k.
Proof.
  unfold set_add. induction o as [|[k' v'] o IH]; simpl; [reflexivity|].
  destruct (str_eqb k k'); simpl; [reflexivity|].
  rewrite IH. destruct (existsb (str_eqb k) (map fst o)); reflexivity.
Qed.

Lemma zip_entries_keys_from (pages : list page)
  (acc : list (jsstring * list N)) :
  map fst (fold_left
             (fun o p => obj_set o (fileName p) (strToU8 svc (content p)))
             pages acc)
  = fold_left set_add (map fileName pages) (map fst acc).
Proof.
  revert acc. induction pages as [|p pages IH]; intros acc; simpl;
    [reflexivity|].
  rewrite IH, obj_set_keys. reflexivity.
Qed.

Lemma zip_entries_keys (pages : list page) :
  map fst (zip_entries svc pages) = first_seen (map fileName pages).
Proof.
  unfold zip_entries. rewrite zip_entries_keys_from.
  apply set_of_first_seen.
Qed.

Lemma first_seen_length (l : list jsstring) :
  (length (first_seen l) <= length l)%nat.
Proof.
  induction l as [|x l IH]; simpl; [lia|].
  pose proof (List.filter_length_le
                (fun y => negb (str_eqb y x)) (first_seen l)).
  lia.
Qed.

(** X13.  The archive has one entry for each distinct file name, in the
    order in which the names first come among the pages: its names have no
    duplicates, and there are no more entries than pages. *)
Theorem archive_entries_are_the_distinct_names (pages : list page) :
  map fst (zip_entries svc pages) = first_seen (map fileName pages)
  /\ List.NoDup (map fst (zip_entries svc pages))
  /\ (forall name, In name (map fst (zip_entries svc pages))
                   <-> In name (map fileName pages))
  /\ (length (zip_entries svc pages) <= length pages)%nat.
Proof.
  rewrite zip_entries_keys. split; [reflexivity|].
  split; [apply first_seen_NoDup|]. split; [intros name; apply first_seen_In|].
  rewrite <- (length_map fst), zip_entries_keys.
  rewrite <- (length_map fileName pages). apply first_seen_length.
Qed.

Lemma obj_set_In_new {V} (o : list (jsstring * V)) (k : jsstring) (v : V) :
  In (k, v) (obj_set o k v).
Proof.
  induction o as [|[k' v'] o IH]; simpl; [left; reflexivity|].
  destruct (str_eqb k k') eqn:E.
  - apply str_eqb_eq in E. subst. left. reflexivity.
  - right. exact IH.
Qed.

Lemma obj_set_In_other {V} (o : list (jsstring * V)) (k k0 : jsstring)
  (v v0 : V) :
  k <> k0 -> In (k0, v0) o -> In (k0, v0) (obj_set o k v).
Proof.
  intros Hne. induction o as [|[k' v'] o IH]; simpl; [tauto|].
  intros [E|Hin].
  - injection E as -> ->.
    destruct (str_eqb k k0) eqn:Ek; [apply str_eqb_eq in Ek; congruence|].
    left. reflexivity.
  - destruct (str_eqb k k'); right; [exact Hin|apply IH, Hin].
Qed.

Lemma fold_obj_set_keeps (pages : list page)
  (acc : list (jsstring * list N)) (k : jsstring) (v : list N) :
  ~ In k (map fileName pages) ->
  In (k, v) acc ->
  In (k, v)
     (fold_left
        (fun o p => obj_set o (fileName p) (strToU8 svc (content p)))
        pages acc).
Proof.
  revert acc. induction pages as [|p pages IH]; intros acc Hno Hin; simpl;
    [exact Hin|].
  apply IH; [simpl in Hno; tauto|].
  apply obj_set_In_other; [simpl in Hno; intros E; apply Hno; left; exact E
                          |exact Hin].
Qed.

Lemma unique_by_key {V} (l : list (jsstring * V)) (k : jsstring) (a b : V) :
  List.NoDup (map fst l) -> In (k, a) l -> In (k, b) l -> a = b.
Proof.
  induction l as [|[k' v'] l IH]; simpl; [tauto|].
  intros Hnd. apply List.NoDup_cons_iff in Hnd as [Hk Hnd].
  intros [Ea|Ha] [Eb|Hb].
  - congruence.
  - injection Ea as -> ->. exfalso. apply Hk.
    apply in_map_iff. exists (k, b). split; [reflexivity|exact Hb].
  - injection Eb as -> ->. exfalso. apply Hk.
    apply in_map_iff. exists (k, a). split; [reflexivity|exact Ha].
  - apply IH; assumption.
Qed.

(** X14.  When several pages have the same file name, the archive keeps
    the content of the last one: the entry under the name of a page that
    no later page shares its name with holds that page's content, and
    nothing else is stored under that name. *)
Theorem last_page_with_a_name_wins
  (before after : list page) (p : page) :
  ~ In (fileName p) (map fileName after) ->
  In (fileName p, strToU8 svc (content p))
     (zip_entries svc (before ++ p :: after))
  /\ forall data,
       In (fileName p, data) (zip_entries svc (before ++ p :: after)) ->
       data = strToU8 svc (content p).
Proof.
  intros Hno.
  assert (Hin : In (fileName p, strToU8 svc (content p))
                   (zip_entries svc (before ++ p :: after))).
  { unfold zip_entries. rewrite fold_left_app. simpl.
    apply fold_obj_set_keeps; [exact Hno|apply obj_set_In_new]. }
  split; [exact Hin|]. intros data Hd.
  eapply unique_by_key; [|exact Hd|exact Hin].
  rewrite zip_entries_keys. apply first_seen_NoDup.
Qed.



(** X16.  A sitemap URL with fewer than two slashes has no third piece:
    the upload step throws, with its prefix, before it reads the clock or
    puts anything in the bucket. *)
Theorem upload_step_needs_two_slashes
  (url : jsstring) (pages : list page) (h : list event) (data : list N) :
  (length (List.filter (N.eqb 47) url) < 2)%nat ->
  zipSync svc (zip_entries svc pages) = Ok data ->
  exists msg,
    zip_and_upload svc url pages h
    = (Throw (Error (lit "Zip and Upload to R2 failed: " ++ msg)), h).
Proof.
  intros Hfew Hzip.
  unfold zip_and_upload, try_catch, catch, bind, lift, throw.
  rewrite Hzip.
  assert (E : nth_error (split 47 url) 2 = None).
  { apply List.nth_error_None. rewrite split_length. lia. }
  rewrite E. eexists. reflexivity.
Qed.

End Archive.

(** ** The handler, request by request *)

Section HandlerRoutes.

Import Workflow Handler.

Variable wfb : binding.

Ltac answered :=
  eexists; split; [reflexivity|split; simpl; tauto].

Lemma status_lookup_answers_always (id : jsstring) (rt : runtime) :
  exists resp,
    fst (status_lookup wfb id rt) = Ok resp
    /\ In cors (headers resp)
    /\ In (status resp) [200; 400; 404; 500].
Proof.
  unfold status_lookup, catch, bind, ret, wf_get, wf_status.
  destruct (fault wfb (calls rt)); simpl; [answered|].
  destruct (instances rt !! id) eqn:Hi; simpl; [|answered].
  destruct (fault wfb (calls rt ++ [CallGet id])); simpl; [answered|].
  rewrite Hi. simpl. answered.
Qed.

Lemma create_instance_result (req : request) (rt : runtime) :
  (exists resp rt', create_instance wfb req rt = (Ok resp, rt')
                    /\ In cors (headers resp)
                    /\ In (status resp) [200; 400; 404; 500])
  \/ exists e rt', create_instance wfb req rt = (Throw e, rt').
Proof.
  unfold create_instance, bind, lift, ret, wf_create, wf_status.
  destruct (body req) as [j|e]; [|right; eauto].
  destruct (negb _ || negb _); [left; do 2 eexists; split;
                                 [reflexivity|split; simpl; tauto]|].
  destruct (fault wfb (calls rt)); [right; eauto|]. simpl.
  destruct (fault wfb (calls rt ++ [CallCreate j])); [right; eauto|].
  rewrite lookup_insert_eq. left. do 2 eexists.
  split; [reflexivity|split; simpl; tauto].
Qed.

(** X17.  The handler never rejects: whatever the request and whatever
    the runtime does, it resolves to a response; the response allows any
    origin, and its status is 200, 400, 404 or 500. *)
Theorem fetch_always_answers (req : request) (rt : runtime) :
  exists resp,
    fst (fetch wfb req rt) = Ok resp
    /\ In cors (headers resp)
    /\ In (status resp) [200; 400; 404; 500].
Proof.
  unfold fetch, catch.
  destruct (str_eqb (pathname req) (lit "/status")
            && str_eqb (method req) (lit "GET")).
  - destruct (no_id (query_id req)); [answered|].
    destruct (status_lookup_answers_always (default [] (query_id req)) rt)
      as (resp & E & Hc & Hs).
    destruct (status_lookup wfb _ rt) as [[r|e] rt']; [|discriminate].
    exists r. simpl in E. injection E as ->. auto.
  - destruct (str_eqb (method req) (lit "POST")).
    + destruct (create_instance_result req rt)
        as [(resp & rt' & -> & Hc & Hs)|(e & rt' & ->)]; [|answered].
      exists resp. auto.
    + destruct (str_eqb (method req) (lit "OPTIONS")); answered.
Qed.

Lemma valid_post_creates
  (req : request) (rt : runtime) (j : json) (url : jsstring) :
  method req = lit "POST" ->
  body req = Ok j ->
  opt_prop (Some j) (lit "sitemapUrl") = Some (JStr url) ->
  url <> [] ->
  fault wfb (calls rt) = None ->
  fault wfb (calls rt ++ [CallCreate j]) = None ->
  fetch wfb req rt
  = (Ok (json_response 200 (id_status_json (new_id wfb rt) Queued)),
     {| instances :=
          <[new_id wfb rt := {| inst_status := Queued; inst_params := j |}]>
            (instances rt);
        calls := calls rt ++ [CallCreate j; CallStatus (new_id wfb rt)] |}).
Proof.
  intros Hm Hb Hu Hne Hf1 Hf2.
  unfold fetch, catch.
  rewrite not_get_not_status by (rewrite Hm; vm_compute; discriminate).
  rewrite Hm. change (str_eqb (lit "POST") (lit "POST")) with true. cbv iota.
  unfold create_instance, bind, lift, ret, wf_create, wf_status, called.
  rewrite Hb, Hu. destruct url as [|c url]; [congruence|]. simpl.
  rewrite Hf1. simpl. rewrite Hf2, lookup_insert_eq. simpl.
  rewrite <- app_assoc. reflexivity.
Qed.

(** X18.  A creation request whose body carries a non-empty string
    [sitemapUrl], when the runtime does not fail: whatever the path of the
    request, one instance is created, queued, holding the body as its
    parameters; the binding is called twice, to create and to read the
    status; and the answer is 200 with the new identifier and status. *)
Theorem create_stores_the_payload
  (req : request) (rt : runtime) (j : json) (url : jsstring) :
  method req = lit "POST" ->
  body req = Ok j ->
  opt_prop (Some j) (lit "sitemapUrl") = Some (JStr url) ->
  url <> [] ->
  fault wfb (calls rt) = None ->
  fault wfb (calls rt ++ [CallCreate j]) = None ->
  let id := new_id wfb rt in
  fetch wfb req rt
  = (Ok {| status := 200;
           headers := json_headers;
           payload := BodyJson
             (JObj [(lit "id", JStr id);
                    (lit "status",
                     JObj [(lit "status", JStr (lit "queued"))])]) |},
     {| instances :=
          <[id := {| inst_status := Queued; inst_params := j |}]>
            (instances rt);
        calls := calls rt ++ [CallCreate j; CallStatus id] |}).
Proof. intros. apply (valid_post_creates req rt j url); assumption. Qed.

(** X19.  What is created can be looked up: after a successful creation,
    a status request for the identifier that was answered gets 200 with
    the same identifier and the status queued, the very answer of the
    creation, as long as the runtime does not fail and the identifier is
    not empty. *)
Theorem created_instance_is_found
  (req : request) (rt : runtime) (j : json) (url : jsstring)
  (lookup : request) :
  method req = lit "POST" ->
  body req = Ok j ->
  opt_prop (Some j) (lit "sitemapUrl") = Some (JStr url) ->
  url <> [] ->
  (forall cs, fault wfb cs = None) ->
  new_id wfb rt <> [] ->
  pathname lookup = lit "/status" ->
  method lookup = lit "GET" ->
  query_id lookup = Some (new_id wfb rt) ->
  fst (fetch wfb lookup (snd (fetch wfb req rt)))
  = Ok {| status := 200;
          headers := json_headers;
          payload := BodyJson
            (JObj [(lit "id", JStr (new_id wfb rt));
                   (lit "status",
                    JObj [(lit "status", JStr (lit "queued"))])]) |}
  /\ fst (fetch wfb lookup (snd (fetch wfb req rt)))
     = fst (fetch wfb req rt).
Proof.
  intros Hm Hb Hu Hne Hf Hid Hp Hg Hq.
  rewrite (valid_post_creates req rt j url Hm Hb Hu Hne (Hf _) (Hf _)).
  cbn [fst snd].
  assert (E : fst (fetch wfb lookup
                {| instances :=
                     <[new_id wfb rt :=
                         {| inst_status := Queued; inst_params := j |}]>
                       (instances rt);
                   calls := calls rt
                            ++ [CallCreate j; CallStatus (new_id wfb rt)] |})
              = Ok (json_response 200
                      (id_status_json (new_id wfb rt) Queued))).
  { unfold fetch, catch. rewrite Hp, Hg, Hq.
    change (str_eqb (lit "/status") (lit "/status")
            && str_eqb (lit "GET") (lit "GET")) with true.
    cbv iota. unfold no_id.
    destruct (new_id wfb rt) as [|c id] eqn:En; [congruence|]. simpl.
    unfold status_lookup, catch, bind, ret, wf_get, wf_status. simpl.
    rewrite !Hf, lookup_insert_eq. simpl.
    rewrite Hf, lookup_insert_eq. reflexivity. }
  rewrite E. split; reflexivity.
Qed.

(** X20.  An [id] parameter that is present but empty counts as missing:
    the answer is the same 400 with the same text, and the workflow
    binding is not called. *)
Theorem empty_id_is_a_missing_id (req : request) (rt : runtime) :
  pathname req = lit "/status" ->
  method req = lit "GET" ->
  query_id req = Some [] ->
  exists resp,
    fetch wfb req rt = (Ok resp, rt)
    /\ status resp = 400
    /\ payload resp
       = BodyText
           (lit "Missing workflow instance ID. Use /status?id=your-instance-id").
Proof.
  intros Hp Hm Hq. exists missing_id_response.
  split; [|split; reflexivity].
  unfold fetch, catch. rewrite Hp, Hm, Hq. reflexivity.
Qed.

(** X21.  What is neither a status lookup nor a creation: an OPTIONS
    request, on any path, gets the preflight answer with the allowed
    methods and headers; any other request gets 404 with an [error] body;
    in both cases the runtime is left as it was. *)
Theorem other_requests (req : request) (rt : runtime) :
  method req <> lit "POST" ->
  pathname req <> lit "/status" \/ method req <> lit "GET" ->
  fetch wfb req rt
  = (Ok (if str_eqb (method req) (lit "OPTIONS")
         then {| status := 200;
                 headers :=
                   [cors;
                    (lit "Access-Control-Allow-Methods",
                     lit "GET, POST, OPTIONS");
                    (lit "Access-Control-Allow-Headers", lit "Content-Type")];
                 payload := BodyNull |}
         else {| status := 404;
                 headers := json_headers;
                 payload := BodyJson
                   (JObj [(lit "error", JStr (lit "Not found"))]) |}),
     rt).
Proof.
  intros Hpost Hroute. unfold fetch, catch.
  assert (E : str_eqb (pathname req) (lit "/status")
              && str_eqb (method req) (lit "GET") = false).
  { apply andb_false_iff.
    destruct Hroute as [H|H]; [left|right]; apply str_eqb_neq; exact H. }
  rewrite E. apply str_eqb_neq in Hpost. rewrite Hpost.
  destruct (str_eqb (method req) (lit "OPTIONS")); reflexivity.
Qed.

(** X22.  The handler never removes or changes an instance by itself: a
    request leaves the instances as they were, unless it is a POST whose
    body carries a string [sitemapUrl], in which case the only change is
    the new instance, queued, under the identifier the runtime chose. *)
Theorem only_a_valid_post_creates (req : request) (rt : runtime) :
  instances (snd (fetch wfb req rt)) = instances rt
  \/ (method req = lit "POST"
      /\ exists j,
           body req = Ok j
           /\ typeof_string (opt_prop (Some j) (lit "sitemapUrl")) = true
           /\ instances (snd (fetch wfb req rt))
              = <[new_id wfb rt :=
                    {| inst_status := Queued; inst_params := j |}]>
                  (instances rt)).
Proof.
  unfold fetch, catch.
  destruct (str_eqb (pathname req) (lit "/status")
            && str_eqb (method req) (lit "GET")).
  - left. destruct (no_id (query_id req)); [reflexivity|].
    unfold status_lookup, catch, bind, ret, wf_get, wf_status.
    destruct (fault wfb (calls rt)); [reflexivity|].
    destruct (instances rt !! _) eqn:Hi; [|reflexivity]. simpl.
    destruct (fault wfb (calls rt ++ _)); [reflexivity|].
    rewrite Hi. reflexivity.
  - destruct (str_eqb (method req) (lit "POST")) eqn:Hm.
    + apply str_eqb_eq in Hm.
      unfold create_instance, bind, lift, ret, wf_create, wf_status.
      destruct (body req) as [j|e]; [|left; reflexivity].
      destruct (negb (truthy _)) eqn:Ht; simpl; [left; reflexivity|].
      destruct (typeof_string _) eqn:Hs; simpl; [|left; reflexivity].
      destruct (fault wfb (calls rt)); [left; reflexivity|]. simpl.
      right. split; [exact Hm|]. exists j.
      split; [reflexivity|]. split; [exact Hs|].
      destruct (fault wfb (calls rt ++ _)); [reflexivity|].
      rewrite lookup_insert_eq. reflexivity.
    + left. destruct (str_eqb (method req) (lit "OPTIONS")); reflexivity.
Qed.

(** X23.  A creation request whose body is not JSON is answered 500,
    with the error of the parser in the [error] body; nothing reaches the
    workflow binding. *)
Theorem unparseable_body_is_a_server_error
  (req : request) (rt : runtime) (e : exn) :
  method req = lit "POST" ->
  body req = Throw e ->
  fetch wfb req rt
  = (Ok {| status := 500;
           headers := json_headers;
           payload := BodyJson
             (JObj [(lit "error",
                     JStr (lit "Failed to process request: "
                           ++ exn_to_string e))]) |},
     rt).
Proof.
  intros Hm Hb. unfold fetch, catch.
  rewrite not_get_not_status by (rewrite Hm; vm_compute; discriminate).
  rewrite Hm. change (str_eqb (lit "POST") (lit "POST")) with true. cbv iota.
  unfold create_instance, bind, lift. rewrite Hb. reflexivity.
Qed.

End HandlerRoutes.

(** ** Concrete cases of the further properties *)


Lemma scrape_step_is_serial_witness :
  snd (Workflow.scrape_pages Scenes.skipping
         [Sample.page_a; Sample.page_b] [])
  = [] ++ flat_map
            (turn_events (lit "Bearer " ++ SCRAPING_API_TOKEN Scenes.skipping)
                         Sample.a_fails)
            [Sample.page_a; Sample.page_b].
Proof.
  apply (scrape_step_is_serial Scenes.skipping Sample.a_fails
           [Sample.page_a; Sample.page_b] []).
  - intros hist u Hu. reflexivity.
  - intros u [<-|[<-|[]]] Hok.
    + vm_compute in Hok. discriminate.
    + eexists. reflexivity.
Defined.

Lemma rejected_request_witness :
  Workflow.scrape_pages Scenes.flaky
    ([Sample.page_a] ++ Sample.page_b :: [Sample.home_page]) []
  = (Throw (Error (lit "Scrape Pages failed: "
                   ++ exn_message (Error (lit "Network connection lost.")))),
     [] ++ flat_map
             (turn_events (lit "Bearer " ++ SCRAPING_API_TOKEN Scenes.flaky)
                          Sample.markdown_of)
             [Sample.page_a]
        ++ [EvScrape (lit "Bearer " ++ SCRAPING_API_TOKEN Scenes.flaky)
                     Sample.page_b]).
Proof.
  apply (rejected_request_aborts_the_step Scenes.flaky Sample.markdown_of
           [Sample.page_a] [Sample.home_page] Sample.page_b
           (Error (lit "Network connection lost.")) []).
  - intros hist v [<-|[]]. reflexivity.
  - intros v _ _. eexists. reflexivity.
  - intros hist. reflexivity.
Defined.


Lemma run_errors_witness :
  names_its_step
    (Error (lit "Fetch & Parse Sitemap failed: Failed to fetch sitemap: 500 Internal Server Error")).
Proof.
  apply (run_errors_name_their_step Scenes.down Sample.two_retries
           Sample.payload ∅ []).
  vm_compute. reflexivity.
Defined.

Lemma handler_and_first_step_witness :
  (exists url resp,
      opt_prop (Some Scenes.bad_body) (lit "sitemapUrl") = Some (JStr url)
      /\ url <> []
      /\ Workflow.get_sitemap_url (Some Scenes.bad_body) [] = (Ok url, [])
      /\ fst (Handler.fetch Sample.calm
                (Sample.create_request Scenes.bad_body) Scenes.no_instances)
         = Ok resp
      /\ Handler.status resp <> 400)
  \/ (exists resp,
        (forall url, url <> [] ->
           opt_prop (Some Scenes.bad_body) (lit "sitemapUrl")
           <> Some (JStr url))
        /\ Workflow.get_sitemap_url (Some Scenes.bad_body) []
           = (Throw (Error (lit "Get Sitemap URL failed: "
                            ++ Workflow.missing_url_message)), [])
        /\ Handler.fetch Sample.calm
             (Sample.create_request Scenes.bad_body) Scenes.no_instances
           = (Ok resp, Scenes.no_instances)
        /\ Handler.status resp = 400).
Proof.
  apply (handler_and_first_step_agree Sample.calm
           (Sample.create_request Scenes.bad_body) Scenes.no_instances
           Scenes.bad_body []); reflexivity.
Defined.

Lemma last_page_witness :
  In (fileName Scenes.second_a,
      strToU8 Scenes.steady (content Scenes.second_a))
     (Workflow.zip_entries Scenes.steady
        ([Scenes.first_a] ++ Scenes.second_a :: [Scenes.page_of_b]))
  /\ forall data,
       In (fileName Scenes.second_a, data)
          (Workflow.zip_entries Scenes.steady
             ([Scenes.first_a] ++ Scenes.second_a :: [Scenes.page_of_b])) ->
       data = strToU8 Scenes.steady (content Scenes.second_a).
Proof.
  apply (last_page_with_a_name_wins Scenes.steady
           [Scenes.first_a] [Scenes.page_of_b] Scenes.second_a).
  vm_compute. intuition discriminate.
Defined.


Lemma upload_needs_slashes_witness :
  exists msg,
    Workflow.zip_and_upload Scenes.steady (lit "example.com")
      [Scenes.page_of_a] []
    = (Throw (Error (lit "Zip and Upload to R2 failed: " ++ msg)), []).
Proof.
  apply (upload_step_needs_two_slashes Scenes.steady (lit "example.com")
           [Scenes.page_of_a] [] (lit "# https://example.com/a")).
  - vm_compute. repeat constructor.
  - reflexivity.
Defined.

Lemma create_stores_witness :
  Handler.fetch Sample.calm (Sample.create_request Scenes.good_body)
    Scenes.no_instances
  = (Ok {| Handler.status := 200;
           Handler.headers := Handler.json_headers;
           Handler.payload := Handler.BodyJson
             (JObj [(lit "id", JStr (Handler.new_id Sample.calm
                                       Scenes.no_instances));
                    (lit "status",
                     JObj [(lit "status", JStr (lit "queued"))])]) |},
     {| Handler.instances :=
          <[Handler.new_id Sample.calm Scenes.no_instances :=
              {| Handler.inst_status := Workflow.Queued;
                 Handler.inst_params := Scenes.good_body |}]>
            (Handler.instances Scenes.no_instances);
        Handler.calls :=
          Handler.calls Scenes.no_instances
          ++ [Handler.CallCreate Scenes.good_body;
              Handler.CallStatus
                (Handler.new_id Sample.calm Scenes.no_instances)] |}).
Proof.
  apply (create_stores_the_payload Sample.calm
           (Sample.create_request Scenes.good_body) Scenes.no_instances
           Scenes.good_body Sample.sitemap_url);
    reflexivity || discriminate.
Defined.

Lemma created_instance_witness :
  fst (Handler.fetch Sample.calm (Sample.status_request (Some (lit "run-1")))
         (snd (Handler.fetch Sample.calm
                 (Sample.create_request Scenes.good_body)
                 Scenes.no_instances)))
  = Ok {| Handler.status := 200;
          Handler.headers := Handler.json_headers;
          Handler.payload := Handler.BodyJson
            (JObj [(lit "id", JStr (Handler.new_id Sample.calm
                                      Scenes.no_instances));
                   (lit "status",
                    JObj [(lit "status", JStr (lit "queued"))])]) |}
  /\ fst (Handler.fetch Sample.calm
            (Sample.status_request (Some (lit "run-1")))
            (snd (Handler.fetch Sample.calm
                    (Sample.create_request Scenes.good_body)
                    Scenes.no_instances)))
     = fst (Handler.fetch Sample.calm
              (Sample.create_request Scenes.good_body) Scenes.no_instances).
Proof.
  apply (created_instance_is_found Sample.calm
           (Sample.create_request Scenes.good_body) Scenes.no_instances
           Scenes.good_body Sample.sitemap_url
           (Sample.status_request (Some (lit "run-1"))));
    try reflexivity; discriminate.
Defined.

Lemma empty_id_witness :
  exists resp,
    Handler.fetch Sample.calm (Sample.status_request (Some []))
      Sample.one_running
    = (Ok resp, Sample.one_running)
    /\ Handler.status resp = 400
    /\ Handler.payload resp
       = Handler.BodyText
           (lit "Missing workflow instance ID. Use /status?id=your-instance-id").
Proof.
  apply (empty_id_is_a_missing_id Sample.calm (Sample.status_request (Some []))
           Sample.one_running); reflexivity.
Defined.

Lemma other_requests_witness :
  Handler.fetch Sample.calm Scenes.delete_request Sample.one_running
  = (Ok (if str_eqb (Handler.method Scenes.delete_request) (lit "OPTIONS")
         then {| Handler.status := 200;
                 Handler.headers :=
                   [Handler.cors;
                    (lit "Access-Control-Allow-Methods",
                     lit "GET, POST, OPTIONS");
                    (lit "Access-Control-Allow-Headers", lit "Content-Type")];
                 Handler.payload := Handler.BodyNull |}
         else {| Handler.status := 404;
                 Handler.headers := Handler.json_headers;
                 Handler.payload := Handler.BodyJson
                   (JObj [(lit "error", JStr (lit "Not found"))]) |}),
     Sample.one_running).
Proof.
  apply (other_requests Sample.calm Scenes.delete_request Sample.one_running).
  - discriminate.
  - right. discriminate.
Defined.

Lemma unparseable_body_witness :
  Handler.fetch Sample.calm Scenes.garbled_request Scenes.no_instances
  = (Ok {| Handler.status := 500;
           Handler.headers := Handler.json_headers;
           Handler.payload := Handler.BodyJson
             (JObj [(lit "error",
                     JStr (lit "Failed to process request: "
                           ++ exn_to_string
                                (Error (lit "Unexpected token < in JSON"))))]) |},
     Scenes.no_instances).
Proof.
  apply (unparseable_body_is_a_server_error Sample.calm
           Scenes.garbled_request Scenes.no_instances
           (Error (lit "Unexpected token < in JSON"))); reflexivity.
Defined.

(** ** More on the sitemap step *)

Lemma first_seen_NoDup_id (l : list jsstring) :
  List.NoDup l -> first_seen l = l.
Proof.
  induction 1 as [|x l Hx Hnd IH]; simpl; [reflexivity|].
  rewrite IH. f_equal.
  clear IH Hnd. induction l as [|y l IH]; simpl; [reflexivity|].
  destruct (str_eqb y x) eqn:E.
  - apply str_eqb_eq in E. subst. simpl in Hx. tauto.
  - simpl. rewrite IH; [reflexivity|simpl in Hx; tauto].
Qed.

(** X24.  A document in which the two patterns capture between one and
    ten links, all different, is returned whole: the [<loc>] captures in
    the order of the document, then the anchor captures in the order of
    the document. *)
Theorem small_sitemap_is_returned_whole (xml : jsstring) :
  List.NoDup (link_captures xml) ->
  link_captures xml <> [] ->
  (length (link_captures xml) <= 10)%nat ->
  Workflow.parse_urls xml
  = Ok (matchAll_captures match_loc xml
        ++ matchAll_captures match_anchor xml).
Proof.
  intros Hnd Hne Hlen. unfold Workflow.parse_urls, slice0.
  fold (link_captures xml).
  rewrite set_of_first_seen, first_seen_NoDup_id by exact Hnd.
  destruct (link_captures xml) as [|x l] eqn:E; [congruence|].
  cbn [length Nat.eqb]. rewrite firstn_all2 by exact Hlen. reflexivity.
Qed.

Lemma small_sitemap_witness :
  Workflow.parse_urls Sample.two_pages
  = Ok (matchAll_captures match_loc Sample.two_pages
        ++ matchAll_captures match_anchor Sample.two_pages).
Proof.
  apply (small_sitemap_is_returned_whole Sample.two_pages).
  - vm_compute. repeat constructor; simpl; intuition discriminate.
  - vm_compute. discriminate.
  - vm_compute. repeat constructor.
Defined.

Lemma skip_spaces_stops (sp s : jsstring) (c : N) :
  Forall (fun x => is_space x = true) sp ->
  is_space c = false ->
  skip_spaces (sp ++ c :: s) = c :: s.
Proof.
  intros Hsp Hc. induction Hsp as [|x sp Hx Hsp IH]; simpl.
  - rewrite Hc. reflexivity.
  - rewrite Hx. exact IH.
Qed.

(** X25.  A document that begins with an anchor, that is [<a], white
    space, [href=] and a quoted text without line terminator, yields that
    text first, followed by what the rest of the document yields. *)
Theorem anchor_is_captured (sp u rest : jsstring) :
  sp <> [] ->
  Forall (fun c => is_space c = true) sp ->
  ~ In 34 u ->
  Forall (fun c => is_line_terminator c = false) u ->
  matchAll_captures match_anchor
    (lit "<a" ++ sp ++ lit "href=" ++ dquote ++ u ++ dquote ++ rest)
  = u :: matchAll_captures match_anchor rest.
Proof.
  intros Hne Hsp Hno Hf. unfold matchAll_captures.
  assert (Hm : match_anchor
                 (lit "<a" ++ sp ++ lit "href=" ++ dquote ++ u ++ dquote ++ rest)
               = Some (u, rest)).
  { unfold match_anchor. rewrite starts_with_app.
    rewrite (drop_app_length' (lit "<a")) by reflexivity.
    destruct sp as [|c sp]; [congruence|].
    apply Forall_cons in Hsp as [Hc Hsp].
    rewrite <- app_comm_cons. unfold spaces_plus. rewrite Hc.
    change (sp ++ lit "href=" ++ dquote ++ u ++ dquote ++ rest)
      with (sp ++ 104 :: (lit "ref=" ++ dquote ++ u ++ dquote ++ rest)).
    rewrite (skip_spaces_stops sp _ 104 Hsp eq_refl).
    change (104 :: (lit "ref=" ++ dquote ++ u ++ dquote ++ rest))
      with ((lit "href=" ++ dquote) ++ u ++ dquote ++ rest).
    rewrite starts_with_app.
    rewrite (drop_app_length' (lit "href=" ++ dquote)) by reflexivity.
    apply (lazy_until_complete _ _ _ 34); [reflexivity|exact Hno|exact Hf]. }
  change (lit "<a" ++ sp ++ lit "href=" ++ dquote ++ u ++ dquote ++ rest)
    with (60 :: (lit "a" ++ sp ++ lit "href=" ++ dquote ++ u ++ dquote ++ rest))
    in Hm |- *.
  cbn [matchAll_from]. rewrite Hm. f_equal.
  rewrite matchAll_from_skip. f_equal.
  replace (lit "a" ++ sp ++ lit "href=" ++ dquote ++ u ++ dquote ++ rest)
    with ((lit "a" ++ sp ++ lit "href=" ++ dquote ++ u ++ dquote) ++ rest)
    by (rewrite <- !app_assoc; reflexivity).
  apply drop_app_length'. simpl. rewrite !length_app. simpl.
  rewrite !length_app. simpl. lia.
Qed.

Lemma anchor_witness :
  matchAll_captures match_anchor
    (lit "<a" ++ lit "  " ++ lit "href=" ++ dquote ++ Sample.page_a
     ++ dquote ++ lit ">a</a>")
  = Sample.page_a :: matchAll_captures match_anchor (lit ">a</a>").
Proof.
  apply (anchor_is_captured (lit "  ") Sample.page_a (lit ">a</a>")).
  - discriminate.
  - vm_compute. repeat constructor.
  - vm_compute. intuition discriminate.
  - vm_compute. repeat constructor.
Defined.

(** ** The sitemap is fetched at most once *)

Section FetchOnce.

Import Workflow.

Variable svc : services.
Variable cfg : step_config.

Lemma emits_only_weaken {A} (P Q : event -> Prop) (m : io A) :
  (forall ev, P ev -> Q ev) -> emits_only P m -> emits_only Q m.
Proof.
  intros Himp Hm h. destruct (Hm h) as (new & E & F).
  exists new. split; [exact E|].
  eapply List.Forall_impl; [exact Himp|exact F].
Qed.

Lemma count_none (new : list event) :
  Forall (fun ev => is_fetch ev = false) new -> count is_fetch new = 0%nat.
Proof.
  unfold count. induction 1 as [|ev new Hev _ IH]; simpl; [reflexivity|].
  rewrite Hev. exact IH.
Qed.

Lemma step_without_fetch {A} `{Serializable A} (name : jsstring)
  (config : step_config) (body : io A) :
  name <> step2 ->
  emits_only (fun ev => owner ev = name) body ->
  fetches_at_most 0 (step_do name config body).
Proof.
  intros Hname Hbody log h. unfold step_do.
  destruct (log !! name); simpl.
  - exists []. rewrite app_nil_r. split; [reflexivity|]. unfold count. simpl. lia.
  - pose proof (emits_attempts (fun ev => owner ev = name)
                  (retries_limit config) name body eq_refl Hbody h)
      as (new & E & F).
    destruct (attempts _ name body h) as [[a|e] h']; simpl in E |- *;
      subst h'; exists new; (split; [reflexivity|]);
      rewrite count_none; try lia;
      (eapply List.Forall_impl; [|exact F]);
      intros [] Hev; simpl in Hev |- *; try reflexivity; congruence.
Qed.

Lemma sitemap_step_fetches_once (url : jsstring) :
  fetches_at_most 1 (step_do step2 sitemap_config (fetch_and_parse svc url)).
Proof.
  intros log h. unfold step_do.
  destruct (log !! step2).
  - exists []. rewrite app_nil_r. split; [reflexivity|]. unfold count. simpl. lia.
  - change (retries_limit sitemap_config) with 0%nat.
    rewrite attempts_no_retry.
    destruct (fetch_and_parse_post svc url (h ++ [EvInvoke step2])) as [E _].
    destruct (fetch_and_parse svc url (h ++ [EvInvoke step2])) as [[a|e] h'];
      simpl in E |- *; subst h';
      exists [EvInvoke step2; EvFetch url];
      (split; [rewrite <- app_assoc; reflexivity|]); unfold count; simpl; lia.
Qed.

Lemma fetches_bind {A B} (a b : nat) (m : wf A) (k : A -> wf B) :
  fetches_at_most a m ->
  (forall x, fetches_at_most b (k x)) ->
  fetches_at_most (a + b) (wf_bind m k).
Proof.
  intros Hm Hk log h. unfold wf_bind.
  destruct (Hm log h) as (new1 & E1 & C1).
  destruct (m log h) as [[x|e] log1 h1]; simpl in E1 |- *; subst h1.
  - destruct (Hk x log1 (h ++ new1)) as (new2 & E2 & C2).
    exists (new1 ++ new2). rewrite E2, <- app_assoc.
    split; [reflexivity|]. rewrite count_app. lia.
  - exists new1. split; [reflexivity|]. lia.
Qed.

Lemma fetches_ret {A} (a : A) : fetches_at_most 0 (wf_ret a).
Proof.
  intros log h. exists []. rewrite app_nil_r.
  split; [reflexivity|]. unfold count. simpl. lia.
Qed.

Ltac other_step := let E := fresh in intros E; vm_compute in E; discriminate.

(** X26.  An execution of [run] fetches the sitemap at most once,
    whatever the world, the payload and the log it starts from: the
    request is made in the second step only, and that step is configured
    with a retry limit of 0. *)
Theorem sitemap_is_fetched_at_most_once
  (payload : jsval) (log : step_log) (h : list event) :
  exists new,
    history (run svc cfg payload log h) = h ++ new
    /\ (count is_fetch new <= 1)%nat.
Proof.
  apply (fetches_bind 0 1);
    [apply step_without_fetch; [other_step|apply get_sitemap_url_events]|].
  intros sitemapUrl.
  apply (fetches_bind 1 0); [apply sitemap_step_fetches_once|].
  intros pageUrls.
  apply (fetches_bind 0 0);
    [apply step_without_fetch; [other_step|apply scrape_pages_events]|].
  intros scrapedPages.
  apply (fetches_bind 0 0);
    [apply step_without_fetch; [other_step|apply zip_and_upload_events]|].
  intros uploadResult.
  apply (fetches_bind 0 0);
    [apply step_without_fetch; [other_step|apply generate_result_events]|].
  intros finalResult. apply fetches_ret.
Qed.

End FetchOnce.
